(** * A shallow embedding of the Civilica crawler

    The repository holds three Python scripts:
    - [cwr.py]: the asynchronous scraper (class [CivilicaScraper]);
    - [scr.py]: the Selenium scraper (module-level functions and globals);
    - [redirect_resolver.py]: the redirect resolver with checkpointing.

    Each script is embedded in a module of its own ([Cwr], [Scr],
    [Resolver]).  The network, the HTML parser and the file system are not
    part of the scripts: a page is given by what the selectors of the script
    find in it, a server by the answer it gives to each request, a file by
    the records written to it.  Text is modelled by [string] (bytes); the
    character classes of Python are restricted to their ASCII part.

    Reading a page and writing a file are the only effects kept; writing a
    file never fails, pacing delays and [logging] below the error level are
    left out.  The tasks that [asyncio.gather] runs share the scraper
    object only; they are run here one after the other, in the order in
    which they were made. *)

From Stdlib Require Import ZArith Lia Ascii.
From stdpp Require Import base list strings gmap pretty.

Local Open Scope Z_scope.

(** ** Python primitives used by the scripts *)

Module Py.

(** What a call that may raise yields. *)
Inductive Result (A : Type) : Type :=
| Ok (a : A)
| Raise (e : string).
Arguments Ok {A} a.
Arguments Raise {A} e.

Definition code (c : ascii) : nat := nat_of_ascii c.

(** [str.isspace] on one character (ASCII part). *)
Definition is_space (c : ascii) : bool :=
  bool_decide (code c = 32%nat)
  || bool_decide (9 ≤ code c ≤ 13)%nat
  || bool_decide (28 ≤ code c ≤ 31)%nat.

(** The class [\d] (ASCII part). *)
Definition is_digit (c : ascii) : bool := bool_decide (48 ≤ code c ≤ 57)%nat.

Fixpoint drop_while (p : ascii → bool) (s : string) : string :=
  match s with
  | EmptyString => EmptyString
  | String c s' => if p c then drop_while p s' else s
  end.

Fixpoint take_while (p : ascii → bool) (s : string) : string :=
  match s with
  | EmptyString => EmptyString
  | String c s' => if p c then String c (take_while p s') else EmptyString
  end.

Definition lstrip (s : string) : string := drop_while is_space s.
Definition rstrip (s : string) : string := String.rev (lstrip (String.rev s)).

(** [s.strip()] *)
Definition strip (s : string) : string := rstrip (lstrip s).

(** [sep.join(l)] *)
Definition join (sep : string) (l : list string) : string := String.concat sep l.

(** [re.sub(r'^\d+\.\s*', '', s)]: a leading run of digits followed by a dot
    is removed together with the white space after it. *)
Definition strip_numbering (s : string) : string :=
  match take_while is_digit s with
  | EmptyString => s
  | _ =>
      match drop_while is_digit s with
      | String "." rest => drop_while is_space rest
      | _ => s
      end
  end.

(** [re.search(r'(\d+)', s)]: the first maximal run of digits, if any. *)
Definition search_digits (s : string) : option string :=
  match take_while is_digit (drop_while (λ c, negb (is_digit c)) s) with
  | EmptyString => None
  | d => Some d
  end.

(** A [dict] with string keys: insertion-ordered, keys unique.  Assigning to
    a key that is present replaces the value and keeps the key's place. *)
Definition dict (V : Type) : Type := list (string * V).

Fixpoint dict_set {V} (d : dict V) (k : string) (v : V) : dict V :=
  match d with
  | [] => [(k, v)]
  | (k', v') :: d' =>
      if decide (k' = k) then (k', v) :: d' else (k', v') :: dict_set d' k v
  end.

Definition keys {V} (d : dict V) : list string := d.*1.

(** [l[lo:hi]] for arbitrary integers. *)
Definition slice_index (len i : Z) : Z :=
  if decide (i < 0) then Z.max 0 (len + i) else Z.min i len.

Definition slice {A} (l : list A) (lo hi : Z) : list A :=
  let len := Z.of_nat (length l) in
  let lo' := slice_index len lo in
  let hi' := slice_index len hi in
  take (Z.to_nat (hi' - lo')) (drop (Z.to_nat lo') l).

(** [json.dumps(d, ensure_ascii=False)] for a [dict] from strings to
    strings. *)
Definition dquote : string := String (ascii_of_nat 34) EmptyString.
Definition backslash : string := String (ascii_of_nat 92) EmptyString.

Definition hex_digit (n : nat) : ascii :=
  if decide (n < 10)%nat then ascii_of_nat (48 + n) else ascii_of_nat (87 + n).

Definition json_escape_char (c : ascii) : string :=
  let n := code c in
  if decide (n = 34)%nat then backslash +:+ dquote
  else if decide (n = 92)%nat then backslash +:+ backslash
  else if decide (n = 10)%nat then backslash +:+ "n"
  else if decide (n = 13)%nat then backslash +:+ "r"
  else if decide (n = 9)%nat then backslash +:+ "t"
  else if decide (n = 8)%nat then backslash +:+ "b"
  else if decide (n = 12)%nat then backslash +:+ "f"
  else if decide (n < 32)%nat then
    backslash +:+ "u00"
      +:+ String (hex_digit (n / 16)) (String (hex_digit (n `mod` 16)) EmptyString)
  else String c EmptyString.

Fixpoint json_escape (s : string) : string :=
  match s with
  | EmptyString => EmptyString
  | String c s' => json_escape_char c +:+ json_escape s'
  end.

Definition json_string (s : string) : string := dquote +:+ json_escape s +:+ dquote.

Definition json_dumps (d : dict string) : string :=
  "{" +:+ join ", " ((λ kv, json_string kv.1 +:+ ": " +:+ json_string kv.2) <$> d) +:+ "}".

(** The rows of a data frame that [drop_duplicates()] keeps: the first of
    each group of equal rows, in their order. *)
Fixpoint drop_duplicates_from {A} `{EqDecision A} (seen l : list A) : list A :=
  match l with
  | [] => []
  | x :: l' =>
      if decide (x ∈ seen) then drop_duplicates_from seen l'
      else x :: drop_duplicates_from (x :: seen) l'
  end.

Definition drop_duplicates {A} `{EqDecision A} (l : list A) : list A :=
  drop_duplicates_from [] l.

(** A cell of a data frame.  In a column that [pd.read_csv] read as
    integers the cells are numbers; the cells of a frame built from Python
    strings are strings.  A number and a string are never equal. *)
Inductive Cell :=
| IntCell (n : Z)
| StrCell (s : string).

Global Instance Cell_eq_dec : EqDecision Cell.
Proof. solve_decision. Defined.

(** The value of a run of decimal digits. *)
Fixpoint digits_value (acc : Z) (s : string) : option Z :=
  match s with
  | EmptyString => Some acc
  | String c s' =>
      if is_digit c then digits_value (10 * acc + (Z.of_nat (code c) - 48)) s'
      else None
  end.

(** The integer that a field of a CSV file stands for: digits after an
    optional sign. *)
Definition int_literal (s : string) : option Z :=
  match s with
  | EmptyString => None
  | String "-" EmptyString => None
  | String "+" EmptyString => None
  | String "-" d => Z.opp <$> digits_value 0 d
  | String "+" d => digits_value 0 d
  | d => digits_value 0 d
  end.

(** The type inference of [pd.read_csv] for one column: a column whose
    fields are all integers is read as numbers, any other column is kept as
    text.  The other conversions of pandas (floats, booleans, missing
    values, integers beyond 64 bits, blanks around a number) are not
    modelled: the ids and URLs of the scripts have none of these forms. *)
Definition read_column (fields : list string) : list Cell :=
  match mapM int_literal fields with
  | Some numbers => IntCell <$> numbers
  | None => StrCell <$> fields
  end.

(** The field that [to_csv] writes for a cell. *)
Definition cell_text (c : Cell) : string :=
  match c with
  | IntCell n => pretty n
  | StrCell s => s
  end.

End Py.


(** ** The asynchronous scraper, [cwr.py] *)

Module Cwr.
Import Py.

(** *** Pages, as the selectors of the script see them *)

(** The first [a] under the [h2] of a list item: its text and its [href]. *)
Record ATag := { a_text : string; a_href : option string }.

(** A [li] of [ul#articleLists]: without [h2], or with one, whose first [a]
    may be missing. *)
Inductive Li :=
| LiNoH2
| LiH2 (a : option ATag).

(** A block [div.my-2.flex.flex-row.items-center]: the texts of
    [div.flex.flex-col > a] and of [div.flex.flex-col > p]. *)
Record AuthorBlock := { name_tag : option string; place_tag : option string }.

Record Html := {
  (** [soup.find('ul', id='articleLists')] and its [li] items *)
  ul_articleLists : option (list Li);
  (** text of [div.prose.max-w-none.my-6.text-color-black.text-justify > div] *)
  abstract_div : option string;
  (** [blockquote.container.mx-auto.mb-8], and the text of its first [p] *)
  citation_block : option (option string);
  author_blocks : list AuthorBlock;
  (** text of the first [span.text-color-muted] *)
  view_tag : option string;
  (** the keyword container, and [get_text(strip=True)] of each [div] in it *)
  keywords_container : option (list string)
}.

(** What [session.get(url)] followed by [response.text()] yields. *)
Inductive GetResult :=
| GetRaises (e : string)
| GetResponse (status : Z) (html : Html).

Definition Server : Type := string → GetResult.

(** *** Records *)

Definition Row : Type := list string.

Definition HEADER : Row :=
  ["Conference_ID"; "Title"; "Link"; "Abstract"; "Citation";
   "Authors"; "Conference_Name"; "Year"; "Keywords";
   "View_Count"; "Page_Count"; "Authors_Map"].

(** A record of the output file, by the call that wrote it:
    [writer.writerow(header)] or one row of [writer.writerows]. *)
Inductive Line :=
| HeaderLine
| DataLine (row : Row).

Definition render (l : Line) : Row :=
  match l with HeaderLine => HEADER | DataLine r => r end.

Definition is_header (l : Line) : bool :=
  match l with HeaderLine => true | DataLine _ => false end.

Definition data_rows (f : list Line) : list Row :=
  omap (λ l, match l with HeaderLine => None | DataLine r => Some r end) f.

Record Failure := { conference_id : string; url : string; error : string }.

Global Instance Failure_eq_dec : EqDecision Failure.
Proof. solve_decision. Defined.

Record Details := {
  abstract : string;
  citation : string;
  authors : string;
  conference : string;
  year : string;
  keywords : string;
  view_count : string;
  page_count : string;
  authors_map : dict string
}.

(** The columns of a row, by their place in [HEADER]. *)
Definition column (i : nat) (r : Row) : string := nth i r EmptyString.
Definition Conference_ID := column 0.
Definition Link := column 2.
Definition Abstract := column 3.
Definition Citation := column 4.
Definition Authors := column 5.
Definition Conference_Name := column 6.
Definition Year := column 7.
Definition Keywords := column 8.
Definition View_Count := column 9.
Definition Page_Count := column 10.
Definition Authors_Map := column 11.

(** *** The scraper object and the files it writes *)

Record Scraper := {
  failed_urls : list Failure;
  result_rows : list Row;
  processed_count : nat;
  (** the file named [self.output_csv]; [None] when it does not exist *)
  output_csv : option (list Line);
  (** the file named [self.failed_urls_log] *)
  failed_urls_log : option (list Failure);
  (** every [session.get(url)] begun so far, in order *)
  requests : list string;
  (** the messages of [logging.error] *)
  errors : list string
}.

Definition log_request (u : string) (s : Scraper) : Scraper :=
  {| failed_urls := failed_urls s; result_rows := result_rows s;
     processed_count := processed_count s; output_csv := output_csv s;
     failed_urls_log := failed_urls_log s;
     requests := requests s ++ [u]; errors := errors s |}.

(** [logging.error(msg); self.failed_urls.append({...})] *)
Definition record_failure (msg : string) (f : Failure) (s : Scraper) : Scraper :=
  {| failed_urls := failed_urls s ++ [f]; result_rows := result_rows s;
     processed_count := processed_count s; output_csv := output_csv s;
     failed_urls_log := failed_urls_log s;
     requests := requests s; errors := errors s ++ [msg] |}.

Definition count_processed (s : Scraper) : Scraper :=
  {| failed_urls := failed_urls s; result_rows := result_rows s;
     processed_count := S (processed_count s); output_csv := output_csv s;
     failed_urls_log := failed_urls_log s;
     requests := requests s; errors := errors s |}.

Definition set_rows (rows : list Row) (file : option (list Line)) (s : Scraper) : Scraper :=
  {| failed_urls := failed_urls s; result_rows := rows;
     processed_count := processed_count s; output_csv := file;
     failed_urls_log := failed_urls_log s;
     requests := requests s; errors := errors s |}.

Definition set_failed_urls_log (f : option (list Failure)) (s : Scraper) : Scraper :=
  {| failed_urls := failed_urls s; result_rows := result_rows s;
     processed_count := processed_count s; output_csv := output_csv s;
     failed_urls_log := f;
     requests := requests s; errors := errors s |}.

(** [logging.error(msg)] *)
Definition record_error (msg : string) (s : Scraper) : Scraper :=
  {| failed_urls := failed_urls s; result_rows := result_rows s;
     processed_count := processed_count s; output_csv := output_csv s;
     failed_urls_log := failed_urls_log s;
     requests := requests s; errors := errors s ++ [msg] |}.

(** [CivilicaScraper.save_results] *)
Definition save_results (s : Scraper) : Scraper :=
  match result_rows s with
  | [] => s
  | rows =>
      let before :=
        match output_csv s with
        | Some f => f              (* file_exists *)
        | None => [HeaderLine]
        end in
      set_rows [] (Some (before ++ (DataLine <$> rows))) s
  end.

(** [MAX_RETRIES].  Only [create_session] reads it, and the scraper never
    calls [create_session]: its requests go through [aiohttp]. *)
Definition MAX_RETRIES : Z := 3.

(** *** The environment of a run *)

Section Environment.

(** [urllib.parse.urljoin] *)
Variable urljoin : string → string → string.
(** the site: what each request is answered with *)
Variable server : Server.
(** the constant [SAVE_EVERY] (500 in the script) *)
Variable SAVE_EVERY : nat.

(** [CivilicaScraper.parse_article_list] *)
Definition parse_article_list (html : Html) (conference_id : string)
  : list (string * string * string) :=
  match ul_articleLists html with
  | None => []
  | Some lis =>
      omap (λ li,
        match li with
        | LiNoH2 => None
        | LiH2 None => None
        | LiH2 (Some a_tag) =>
            match a_href a_tag with
            | None => None
            | Some href =>
                if decide (href = EmptyString) then None
                else
                  let title := strip_numbering (strip (a_text a_tag)) in
                  let link := urljoin "https://civilica.com/" href in
                  Some (conference_id, title, link)
            end
        end) lis
  end.

(** [CivilicaScraper.extract_keywords_from_page] *)
Definition extract_keywords_from_page (html : Html) : option string :=
  match keywords_container html with
  | None => None
  | Some keyword_anchors =>
      match filter (λ t, t ≠ EmptyString) keyword_anchors with
      | [] => None
      | kws => Some (join ", " kws)
      end
  end.

(** The loop over [author_blocks] in [parse_article_page]. *)
Definition collect_authors (blocks : list AuthorBlock) : dict string :=
  foldl (λ d block,
    match name_tag block with
    | Some name_text =>
        let name := strip name_text in
        let place := from_option strip EmptyString (place_tag block) in
        dict_set d name place
    | None => d
    end) [] blocks.

(** [CivilicaScraper.parse_article_page] *)
Definition parse_article_page (html : Html) : Result Details :=
  let abstract := from_option strip EmptyString (abstract_div html) in
  let citation_r :=
    match citation_block html with
    | None => Ok EmptyString
    | Some (Some p) => Ok (strip p)
    | Some None => Raise "'NoneType' object has no attribute 'text'"
    end in
  match citation_r with
  | Raise e => Raise e
  | Ok citation =>
      let authors_map := collect_authors (author_blocks html) in
      let view_count :=
        match view_tag html with
        | Some view_text => from_option id "0" (search_digits (strip view_text))
        | None => "0"
        end in
      let keywords := extract_keywords_from_page html in
      Ok {| abstract := abstract;
            citation := citation;
            authors := join ", " (keys authors_map);
            conference := EmptyString;
            year := EmptyString;
            keywords := from_option id EmptyString keywords;
            view_count := view_count;
            page_count := EmptyString;
            authors_map := authors_map |}
  end.

Definition article_failure (conference_id link e : string) (s : Scraper) : Scraper :=
  record_failure ("Article failed: " +:+ link +:+ " - " +:+ e)
    {| conference_id := conference_id; url := link; error := e |} s.

(** [CivilicaScraper.process_article]: the row returned ([None] on failure)
    and the scraper afterwards.  Every exception is caught inside. *)
Definition process_article (conference_id title link : string) (s : Scraper)
  : option Row * Scraper :=
  let s := log_request link s in
  match server link with
  | GetRaises e => (None, article_failure conference_id link e s)
  | GetResponse status html =>
      if decide (status ≠ 200) then
        (None, article_failure conference_id link ("Status " +:+ pretty status) s)
      else
        match parse_article_page html with
        | Raise e => (None, article_failure conference_id link e s)
        | Ok details =>
            (Some [conference_id; title; link;
                   abstract details; citation details;
                   authors details; conference details;
                   year details; keywords details;
                   view_count details; page_count details;
                   json_dumps (authors_map details)],
             count_processed s)
        end
  end.

(** [asyncio.gather] over the tasks of the articles of one page: the results in
    the order of the tasks.  The tasks only share [failed_urls],
    [processed_count] and the request log; they are run here in the order of
    the page. *)
Fixpoint gather_articles (articles : list (string * string * string)) (s : Scraper)
  : list (option Row) * Scraper :=
  match articles with
  | [] => ([], s)
  | (conference_id, title, link) :: rest =>
      let '(r, s1) := process_article conference_id title link s in
      let '(rs, s2) := gather_articles rest s1 in
      (r :: rs, s2)
  end.

(** The end of the loop body of [process_conference]: the rows of the page
    are appended, then saved when [SAVE_EVERY] is reached. *)
Definition collect_results (results : list (option Row)) (s : Scraper) : Scraper :=
  let s := set_rows (result_rows s ++ omap id results) (output_csv s) s in
  if decide (SAVE_EVERY ≤ length (result_rows s))%nat then save_results s else s.

Definition listing_url (conference_id : string) (page : nat) : string :=
  "https://civilica.com/l/" +:+ conference_id +:+ "/pgn-" +:+ pretty page +:+ "/".

(** [CivilicaScraper.process_conference], from page [page] on.  The loop of
    the script has no bound; [fuel] bounds the number of listing pages
    fetched here, and the flag tells whether the loop was left ([break]). *)
Fixpoint process_conference_from (fuel : nat) (conference_id : string) (page : nat)
  (s : Scraper) : Scraper * bool :=
  match fuel with
  | O => (s, false)
  | S fuel' =>
      let url := listing_url conference_id page in
      let s := log_request url s in
      match server url with
      | GetRaises e =>
          (record_failure ("Conference page failed: " +:+ url +:+ " - " +:+ e)
             {| conference_id := conference_id; url := url; error := e |} s,
           true)
      | GetResponse status html =>
          if decide (status ≠ 200) then (s, true)
          else
            match parse_article_list html conference_id with
            | [] => (s, true)
            | articles =>
                let '(results, s) := gather_articles
                  ((λ a, (conference_id, a.1.2, a.2)) <$> articles) s in
                let s := collect_results results s in
                process_conference_from fuel' conference_id (S page) s
            end
      end
  end.

Definition process_conference (fuel : nat) (conference_id : string) (s : Scraper)
  : Scraper * bool :=
  process_conference_from fuel conference_id 1 s.

(** [asyncio.gather] over the conferences, run one after the other. *)
Fixpoint process_all (fuel : nat) (ids : list string) (s : Scraper) : Scraper * bool :=
  match ids with
  | [] => (s, true)
  | cid :: rest =>
      let '(s1, finished) := process_conference fuel cid s in
      if finished then process_all fuel rest s1 else (s1, false)
  end.

(** The command line and the input data set. *)
Record Args := { start : Z; end_ : Z }.
Record InputRow := { row_id : string; row_keywords : option string }.

Definition eligible (r : InputRow) : Prop :=
  match row_keywords r with Some k => k ≠ EmptyString | None => False end.

Global Instance eligible_dec r : Decision (eligible r).
Proof. unfold eligible. destruct (row_keywords r); apply _. Defined.

(** [CivilicaScraper.__init__], given the files found on disk *)
Definition init (files : option (list Line) * option (list Failure)) : Scraper :=
  {| failed_urls := []; result_rows := []; processed_count := 0;
     output_csv := files.1; failed_urls_log := files.2;
     requests := []; errors := [] |}.

(** [CivilicaScraper.run]; [input] is [None] when [pd.read_csv] raises.
    The side file of the filtered ids is left out. *)
Definition run (fuel : nat) (args : Args) (input : option (list InputRow))
  (s : Scraper) : Result (Scraper * bool) :=
  match input with
  | None => Raise "FileNotFoundError"
  | Some df =>
      let ids := slice (row_id <$> filter eligible df) (start args) (end_ args) in
      let s := set_rows (result_rows s) (Some [HeaderLine]) s in
      let '(s, finished) := process_all fuel ids s in
      if finished then
        let s := save_results s in
        let s :=
          match failed_urls s with
          | [] => s
          | _ => set_failed_urls_log (Some (failed_urls s)) s
          end in
        Ok (s, true)
      else Ok (s, false)
  end.

(** How the interpreter ends after [main()]. *)
Inductive Exit :=
| Exited (status : Z)
| Running.

Definition INVALID_RANGE : string :=
  "Invalid start/end values. End must be greater than start, and start must be >= 0".

(** [main], and the exit status of the script: 0 when [main] returns, 1
    when an exception leaves it.  The scraper returned stands for the files
    and the requests after [main]; with an invalid range no scraper is made,
    and it only carries the files as they were and the message logged. *)
Definition main (fuel : nat) (args : Args) (input : option (list InputRow))
  (files : option (list Line) * option (list Failure)) : Scraper * Exit :=
  if decide (start args < 0 ∨ end_ args ≤ start args) then
    (record_error INVALID_RANGE (init files), Exited 0)
  else
    let scraper := init files in
    match run fuel args input scraper with
    | Raise _ => (scraper, Exited 1)
    | Ok (s, true) => (s, Exited 0)
    | Ok (s, false) => (s, Running)
    end.

End Environment.

End Cwr.

(** ** The Selenium scraper, [scr.py] *)

Module Scr.
Import Py.

(** What [driver.get(url)] does: it returns, or it raises one of the two
    exceptions that [retry_get] catches. *)
Inductive DriverGet :=
| Loaded
| RaisesTimeoutException
| RaisesWebDriverException.

(** The browser: the outcome of [driver.get(url)], given how many calls of
    [driver.get] came before it. *)
Definition Driver : Type := string → nat → DriverGet.

(** An entry of the global [failed_urls]. *)
Record Failure := { conference_id : string; url : string }.

Global Instance Failure_eq_dec : EqDecision Failure.
Proof. solve_decision. Defined.

Record State := {
  failed_urls : list Failure;
  (** every [driver.get(url)] so far, in order *)
  gets : list string;
  (** the attempt numbers given to [logging.warning] *)
  warnings : list (nat * string)
}.

Section Environment.

Variable driver : Driver.
(** [args.retries] *)
Variable retries : Z.

(** The loop [for attempt in range(attempt, retries + 1)] of [retry_get],
    with [remaining] attempts left, and what follows it. *)
Fixpoint retry_get_from (remaining attempt : nat) (url cid : string) (st : State)
  : bool * State :=
  match remaining with
  | O =>
      (false,
       {| failed_urls := failed_urls st ++ [{| conference_id := cid; url := url |}];
          gets := gets st; warnings := warnings st |})
  | S remaining' =>
      match driver url (length (gets st)) with
      | Loaded =>
          (true,
           {| failed_urls := failed_urls st; gets := gets st ++ [url];
              warnings := warnings st |})
      | RaisesTimeoutException | RaisesWebDriverException =>
          retry_get_from remaining' (S attempt) url cid
            {| failed_urls := failed_urls st; gets := gets st ++ [url];
               warnings := warnings st ++ [(attempt, url)] |}
      end
  end.

(** [retry_get(driver, url, cid)] *)
Definition retry_get (url cid : string) (st : State) : bool * State :=
  retry_get_from (Z.to_nat retries) 1 url cid st.

End Environment.

(** [pd.read_csv(args.failed)] on the lines of the log: each of the two
    columns is read on its own. *)
Definition read_csv (file : list Failure) : list (Cell * Cell) :=
  zip (read_column (conference_id <$> file)) (read_column (url <$> file)).

(** [pd.DataFrame(failed_urls)]: the cells are the strings of the entries. *)
Definition DataFrame (failed_urls : list Failure) : list (Cell * Cell) :=
  (λ f, (StrCell (conference_id f), StrCell (url f))) <$> failed_urls.

(** The lines that [to_csv(args.failed, index=False)] writes. *)
Definition to_csv (df : list (Cell * Cell)) : list Failure :=
  (λ r, {| conference_id := cell_text r.1; url := cell_text r.2 |}) <$> df.

(** The end of [main]: the lines of the failure log at [args.failed]
    ([None] when the file does not exist) after the run. *)
Definition save_failed_urls (failed_urls : list Failure)
  (failed_file : option (list Failure)) : option (list Failure) :=
  match failed_urls with
  | [] => failed_file
  | _ =>
      let failed_df := DataFrame failed_urls in
      let failed_df :=
        match failed_file with
        | Some file =>
            let existing_failed := read_csv file in
            drop_duplicates (existing_failed ++ failed_df)
        | None => failed_df
        end in
      Some (to_csv failed_df)
  end.

End Scr.

(** ** The redirect resolver, [redirect_resolver.py] *)

Module Resolver.
Import Py.

(** A row of the input: the cell of [url_column] ([None] for NaN) and the
    other cells. *)
Record InRow := { website : option string; others : list string }.

(** A row of the output: the input row and the cell of [Final URL]. *)
Record OutRow := { source : InRow; final_url : option string }.

Global Instance InRow_eq_dec : EqDecision InRow.
Proof. solve_decision. Defined.
Global Instance OutRow_eq_dec : EqDecision OutRow.
Proof. solve_decision. Defined.

(** What [future.result()] yields for [resolve_redirect_worker(url)]: the
    final URL, or an exception. *)
Definition Worker : Type := string → Result string.

(** [sliced_df[url_column].map(lambda x: results.get(x) if x in results else None)] *)
Definition final_url_column (results : gmap string (option string))
  (sliced_df : list InRow) : list OutRow :=
  (λ r, {| source := r;
           final_url := x ← website r; default None (results !! x) |}) <$> sliced_df.

Record Loop := {
  results : gmap string (option string);
  completed_count : nat;
  (** every [to_csv(output_csv)], in order *)
  writes : list (list OutRow)
}.

Record Run := {
  (** the URLs given to [executor.submit] *)
  submitted : list string;
  (** the content of [output_csv] after each write *)
  written : list (list OutRow)
}.

Section Environment.

Variable worker : Worker.

(** One turn of the loop over [as_completed(future_to_url)]. *)
Definition complete (save_every : positive) (sliced_df : list InRow) (total : nat)
  (st : Loop) (orig_url : string) : Loop :=
  let results :=
    match worker orig_url with
    | Ok resolved => <[orig_url := Some resolved]> (results st)
    | Raise _ => <[orig_url := None]> (results st)
    end in
  let completed_count := S (completed_count st) in
  let writes :=
    if decide (completed_count `mod` Pos.to_nat save_every = 0 ∨ completed_count = total)%nat
    then writes st ++ [final_url_column results sliced_df]
    else writes st in
  {| results := results; completed_count := completed_count; writes := writes |}.

(** [df.iloc[start_index:end_index]]; [end_index] is [None] by default. *)
Definition sliced (df : list InRow) (start_index : Z) (end_index : option Z)
  : list InRow :=
  slice df start_index (default (Z.of_nat (length df)) end_index).

(** The set [already_done]; [saved] is the content of [output_csv] when it
    exists and can be read. *)
Definition load_done (saved : option (list OutRow)) : gset string :=
  match saved with
  | Some saved_df => list_to_set (omap (λ r, website (source r)) saved_df)
  | None => ∅
  end.

(** The URLs of [future_to_url], in the order of their submission. *)
Definition to_submit (already_done : gset string) (sliced_df : list InRow)
  : list string :=
  filter (λ url, url ∉ already_done) (omap website sliced_df).

(** The loop over [as_completed(future_to_url)]; the futures complete in
    the order of their submission. *)
Definition resolve_all (save_every : positive) (sliced_df : list InRow)
  (future_to_url : list string) : Loop :=
  foldl (complete save_every sliced_df (length future_to_url))
    {| results := ∅; completed_count := 0; writes := [] |} future_to_url.

(** [main] *)
Definition main (df : list InRow) (saved : option (list OutRow))
  (start_index : Z) (end_index : option Z) (save_every : positive) : Run :=
  let sliced_df := sliced df start_index end_index in
  let already_done := load_done saved in
  let future_to_url := to_submit already_done sliced_df in
  let st := resolve_all save_every sliced_df future_to_url in
  {| submitted := future_to_url;
     written := writes st ++ [final_url_column (results st) sliced_df] |}.

(** [output_csv] when [main] returns. *)
Definition final_output (r : Run) : list OutRow := default [] (last (written r)).

End Environment.

End Resolver.

(** * The vocabulary of the claims *)

Module Spec.
Import Py Cwr.

(** A listing page whose fetch fails: [session.get] raises (the message is
    given), or the answer has a status other than 200 (no message). *)
Inductive ListingFailure (server : Server) (url : string) : option string → Prop :=
| listing_raises e :
    server url = GetRaises e → ListingFailure server url (Some e)
| listing_status status html :
    server url = GetResponse status html → status ≠ 200 →
    ListingFailure server url None.

(** A range of conferences that [main] refuses. *)
Definition invalid_range (args : Args) : Prop :=
  start args < 0 ∨ end_ args ≤ start args.

(** The names found in the author blocks of a page, in the order of the
    page. *)
Definition discovered_authors (html : Html) : list string :=
  omap (λ block, strip <$> name_tag block) (author_blocks html).

(** The body of the loop of [collect_authors]. *)
Definition add_author (d : dict string) (block : AuthorBlock) : dict string :=
  match name_tag block with
  | Some name_text =>
      dict_set d (strip name_text) (from_option strip EmptyString (place_tag block))
  | None => d
  end.

(** The rows given to the sink so far: those in the file, then those still
    buffered. *)
Definition emitted (s : Scraper) : list Row :=
  data_rows (default [] (output_csv s)) ++ result_rows s.

(** The number of header records in a file. *)
Definition header_count (f : list Line) : nat := length (filter is_header f).

(** The file holds one header, at its start, and rows after it. *)
Definition headed (s : Scraper) : Prop :=
  ∃ rows, output_csv s = Some (HeaderLine :: (DataLine <$> rows)).

(** What is unchanged between two states of the scraper, for the sink. *)
Definition same_sink (s s' : Scraper) : Prop :=
  result_rows s' = result_rows s
  ∧ output_csv s' = output_csv s
  ∧ failed_urls_log s' = failed_urls_log s.

(** The scraper as [run] makes it before the first conference: the output
    file holds the header, nothing is buffered. *)
Definition started (s : Scraper) : Scraper := set_rows [] (Some [HeaderLine]) s.


(** What the walks of a run do to the sink, one step at a time, however
    they interleave: the rows of a page are collected, or the buffer is
    saved. *)
Inductive SinkStep :=
| PageCollected (results : list (option Row))
| Saved.

Definition sink_step (SAVE_EVERY : nat) (s : Scraper) (step : SinkStep) : Scraper :=
  match step with
  | PageCollected results => collect_results SAVE_EVERY results s
  | Saved => save_results s
  end.

Definition collected (step : SinkStep) : list Row :=
  match step with
  | PageCollected results => omap id results
  | Saved => []
  end.

(** The pair that identifies a row: conference and link. *)
Definition key (row : Row) : string * string := (Conference_ID row, Link row).

(** The links on the listing pages that a walk of at most [fuel] pages
    reads, from page [page] on, in the order of the pages. *)
Fixpoint discovered_links (urljoin : string → string → string) (server : Server)
  (fuel : nat) (cid : string) (page : nat) : list string :=
  match fuel with
  | O => []
  | S fuel' =>
      match server (listing_url cid page) with
      | GetRaises _ => []
      | GetResponse status html =>
          if decide (status ≠ 200) then []
          else
            match parse_article_list urljoin html cid with
            | [] => []
            | articles =>
                articles.*2 ++ discovered_links urljoin server fuel' cid (S page)
            end
      end
  end.

(** The keys that a run over [ids] can emit: for each conference in turn,
    the links its walk discovered. *)
Definition run_links (urljoin : string → string → string) (server : Server)
  (fuel : nat) (ids : list string) : list (string * string) :=
  ids ≫= λ cid, (λ l, (cid, l)) <$> discovered_links urljoin server fuel cid 1.

(** The conferences of a run: the ids of the eligible rows, sliced. *)
Definition conferences (args : Args) (df : list InputRow) : list string :=
  slice (row_id <$> filter eligible df) (start args) (end_ args).

(** The keys of the rows of a saved output of the resolver. *)
Definition saved_keys (saved : list Resolver.OutRow) : list string :=
  omap (λ r, Resolver.website (Resolver.source r)) saved.

End Spec.

(** * Sites, browsers and files to run the scripts on *)

Module Samples.
Import Py Cwr.

Definition no_page : Html :=
  {| ul_articleLists := None; abstract_div := None; citation_block := None;
     author_blocks := []; view_tag := None; keywords_container := None |}.

(** A site that answers every request with the given status and an empty
    page, and one that lets every request fail. *)
Definition always_status (status : Z) : Server := λ _, GetResponse status no_page.
Definition always_raises (e : string) : Server := λ _, GetRaises e.

(** A site that answers every request with the same page. *)
Definition serves (html : Html) : Server := λ _, GetResponse 200 html.

(** A stand-in for [urljoin] on relative references. *)
Definition join_relative (base href : string) : string := base +:+ href.

(** A scraper before its run, without files. *)
Definition fresh : Scraper := init (None, None).

(** A page with four author blocks: a name met twice, and a block without
    a name. *)
Definition authors_page : Html :=
  {| ul_articleLists := None; abstract_div := Some " An abstract. ";
     citation_block := Some (Some "A citation"); view_tag := Some "seen 12 times";
     keywords_container := Some ["crawl"; EmptyString; "spec"];
     author_blocks :=
       [ {| name_tag := Some " Ali "; place_tag := Some "Tehran" |};
         {| name_tag := Some "Sara"; place_tag := None |};
         {| name_tag := Some "Ali"; place_tag := Some "Shiraz" |};
         {| name_tag := None; place_tag := Some "Tabriz" |} ] |}.

Definition authors_row : Row :=
  default [] (process_article (serves authors_page) "7" "t" "u" fresh).1.

(** A page whose citation block holds no paragraph. *)
Definition broken_citation_page : Html :=
  {| ul_articleLists := None; abstract_div := Some "text";
     citation_block := Some None; author_blocks := []; view_tag := None;
     keywords_container := None |}.

(** A data set with conference 7 only, and the range that selects it. *)
Definition one_conference : list InputRow :=
  [{| row_id := "7"; row_keywords := Some "k" |}].

Definition first_conference : Args := {| start := 0; end_ := 1 |}.

(** Two small sites for conference 7. *)
Definition item (title href : string) : Li :=
  LiH2 (Some {| a_text := title; a_href := Some href |}).

Definition listing (items : list Li) : Html :=
  {| ul_articleLists := Some items; abstract_div := None; citation_block := None;
     author_blocks := []; view_tag := None; keywords_container := None |}.

(** Page 1 lists two articles, page 2 a third one, page 3 is empty. *)
Definition plain_site : Server := λ u,
  if decide (u = listing_url "7" 1) then
    GetResponse 200 (listing [item "1. First" "doc/1"; LiNoH2; item "2. Second" "doc/2"])
  else if decide (u = listing_url "7" 2) then
    GetResponse 200 (listing [item "3. Third" "doc/3"])
  else if decide (u = listing_url "7" 3) then GetResponse 200 (listing [])
  else GetResponse 200 authors_page.

(** Page 2 lists the article of page 1 again. *)
Definition repeating_site : Server := λ u,
  if decide (u = listing_url "7" 1) then
    GetResponse 200 (listing [item "1. First" "doc/1"])
  else if decide (u = listing_url "7" 2) then
    GetResponse 200 (listing [item "1. First" "doc/1"])
  else if decide (u = listing_url "7" 3) then GetResponse 200 (listing [])
  else GetResponse 200 authors_page.

(** A browser that times out on every load, and the globals of [scr.py]
    before a run. *)
Definition always_timeout : Scr.Driver := λ _ _, Scr.RaisesTimeoutException.

Definition idle : Scr.State :=
  {| Scr.failed_urls := []; Scr.gets := []; Scr.warnings := [] |}.

Definition failure_a : Scr.Failure := {| Scr.conference_id := "7"; Scr.url := "a" |}.
Definition failure_b : Scr.Failure := {| Scr.conference_id := "7"; Scr.url := "b" |}.

(** Rows of the resolver, and a worker that follows every URL to the same
    URL under [/final]. *)
Definition input_row (url : string) : Resolver.InRow :=
  {| Resolver.website := Some url; Resolver.others := [] |}.

Definition resolved (url final : string) : Resolver.OutRow :=
  {| Resolver.source := input_row url; Resolver.final_url := Some final |}.

Definition unresolved (url : string) : Resolver.OutRow :=
  {| Resolver.source := input_row url; Resolver.final_url := None |}.

Definition follows : Resolver.Worker := λ url, Ok (url +:+ "/final").

End Samples.

(** * The rest of the Selenium scraper, [scr.py] *)

Module ScrRun.
Import Py.

(** The six fields that [parse_citation_details] reads from the text of a
    citation. *)
Record CitationDetails := {
  authors : string;
  conference : string;
  year : string;
  keywords : string;
  view_count : string;
  page_count : string
}.

(** The globals of the script and the files it writes. *)
Record World := {
  (** [failed_urls], and the loads the browsers made *)
  browser : Scr.State;
  (** the global [result_rows] *)
  result_rows : list Cwr.Row;
  (** the file [args.output]; [None] when it does not exist *)
  output : option (list Cwr.Line);
  (** the file [args.failed] *)
  failed : option (list Scr.Failure)
}.

Definition set_browser (st : Scr.State) (w : World) : World :=
  {| browser := st; result_rows := result_rows w; output := output w;
     failed := failed w |}.

Definition set_result_rows (rows : list Cwr.Row) (out : option (list Cwr.Line))
  (w : World) : World :=
  {| browser := browser w; result_rows := rows; output := out; failed := failed w |}.

(** [save_partial_results] *)
Definition save_partial_results (w : World) : World :=
  match result_rows w with
  | [] => w
  | rows =>
      let before :=
        match output w with
        | Some f => f              (* file_exists *)
        | None => [Cwr.HeaderLine]
        end in
      set_result_rows [] (Some (before ++ (Cwr.DataLine <$> rows))) w
  end.

(** [result_rows.extend(local_rows); save_partial_results()] *)
Definition flush_local (local_rows : list Cwr.Row) (w : World) : World :=
  save_partial_results (set_result_rows (result_rows w ++ local_rows) (output w) w).

(** [ids[args.start:args.end] if args.end else ids[args.start:]] *)
Definition subset (ids : list string) (start : Z) (end_ : option Z) : list string :=
  match end_ with
  | Some e => if decide (e ≠ 0) then slice ids start e
              else slice ids start (Z.of_nat (length ids))
  | None => slice ids start (Z.of_nat (length ids))
  end.

Section Environment.

(** the browser: how each load ends *)
Variable driver : Scr.Driver.
(** the page that the browser shows after it loaded a URL, given how many
    loads it made up to then; pages are given as in [Cwr.Html], by what the
    same selectors find *)
Variable dom : string → nat → Cwr.Html.
(** [urllib.parse.urljoin] *)
Variable urljoin : string → string → string.
(** [parse_citation_details]: its regular expressions read Persian text;
    the walk is modelled for any function from the text to the six
    fields *)
Variable parse_citation_details : string → CitationDetails.
(** [args.retries] and [args.save_every] *)
Variable retries : Z.
Variable save_every : Z.

(** [parse_article_list].  An [a] without [href] gives [None] to
    [urljoin], which then returns its base. *)
Definition parse_article_list (page : Cwr.Html) (conference_id : string)
  : list (string * string * string) :=
  match Cwr.ul_articleLists page with
  | None => []
  | Some lis =>
      omap (λ li,
        match li with
        | Cwr.LiNoH2 => None
        | Cwr.LiH2 None => None
        | Cwr.LiH2 (Some a) =>
            let href := Cwr.a_href a in
            let title := strip_numbering (strip (Cwr.a_text a)) in
            let link :=
              from_option (urljoin "https://civilica.com/") "https://civilica.com/" href in
            Some (conference_id, title, link)
        end) lis
  end.

(** [extract_abstract] *)
Definition extract_abstract (page : Cwr.Html) : string :=
  from_option strip EmptyString (Cwr.abstract_div page).

(** [extract_citation] *)
Definition extract_citation (page : Cwr.Html) : string :=
  match Cwr.citation_block page with
  | Some (Some p) => strip p
  | Some None => EmptyString
  | None => EmptyString
  end.

(** [extract_authors_and_places]: the loop is that of [cwr.py]. *)
Definition extract_authors_and_places (page : Cwr.Html) : dict string :=
  Cwr.collect_authors (Cwr.author_blocks page).

(** The row that [process_conference] builds from the page of an
    article. *)
Definition article_row (conf_id title link : string) (page : Cwr.Html) : Cwr.Row :=
  let abstract := extract_abstract page in
  let citation := extract_citation page in
  let details := parse_citation_details citation in
  let authors_map := extract_authors_and_places page in
  [conf_id; title; link;
   abstract; citation;
   authors details; conference details;
   year details; keywords details;
   view_count details; page_count details;
   json_dumps authors_map].

(** The loop over the articles of a page in [process_conference]: the
    local rows and the globals after it. *)
Fixpoint process_articles (conf_id : string) (arts : list (string * string * string))
  (local_rows : list Cwr.Row) (w : World) : list Cwr.Row * World :=
  match arts with
  | [] => (local_rows, w)
  | (_, title, link) :: rest =>
      let '(loaded, st) := Scr.retry_get driver retries link conf_id (browser w) in
      let w := set_browser st w in
      if loaded then
        let page := dom link (length (Scr.gets st)) in
        let local_rows := local_rows ++ [article_row conf_id title link page] in
        if decide (save_every ≤ Z.of_nat (length local_rows)) then
          process_articles conf_id rest [] (flush_local local_rows w)
        else process_articles conf_id rest local_rows w
      else process_articles conf_id rest local_rows w
  end.

(** The loop over the pages in [process_conference], from page [page] on;
    [fuel] bounds the number of listing pages loaded, and the flag tells
    whether the loop was left. *)
Fixpoint walk (fuel : nat) (conf_id : string) (page : nat)
  (local_rows : list Cwr.Row) (w : World) : list Cwr.Row * World * bool :=
  match fuel with
  | O => (local_rows, w, false)
  | S fuel' =>
      let url := Cwr.listing_url conf_id page in
      let '(loaded, st) := Scr.retry_get driver retries url conf_id (browser w) in
      let w := set_browser st w in
      if loaded then
        match parse_article_list (dom url (length (Scr.gets st))) conf_id with
        | [] => (local_rows, w, true)
        | arts =>
            let '(local_rows, w) := process_articles conf_id arts local_rows w in
            walk fuel' conf_id (S page) local_rows w
        end
      else (local_rows, w, true)
  end.

(** [process_conference] *)
Definition process_conference (fuel : nat) (conf_id : string) (w : World)
  : World * bool :=
  let '(local_rows, w, ended) := walk fuel conf_id 1 [] w in
  if ended then
    match local_rows with
    | [] => (w, true)
    | _ => (flush_local local_rows w, true)
    end
  else (w, false).

(** The conferences, one after the other, as with [--no-parallel]; with
    the thread pool their walks interleave. *)
Fixpoint process_all (fuel : nat) (ids : list string) (w : World) : World * bool :=
  match ids with
  | [] => (w, true)
  | cid :: rest =>
      let '(w1, finished) := process_conference fuel cid w in
      if finished then process_all fuel rest w1 else (w1, false)
  end.

(** [main], given the data set read from [args.input] and the files found
    on disk at [args.output] and [args.failed]: the ids of the rows with
    keywords are sliced, the output file is removed when it exists, the
    conferences are walked, and the failures are saved. *)
Definition main (fuel : nat) (df : list Cwr.InputRow) (start : Z) (end_ : option Z)
  (output_file : option (list Cwr.Line)) (failed_file : option (list Scr.Failure))
  : World * bool :=
  let ids := Cwr.row_id <$> filter Cwr.eligible df in
  let output_file :=
    match output_file with
    | Some _ => None             (* os.remove(args.output) *)
    | None => None
    end in
  let w0 :=
    {| browser := {| Scr.failed_urls := []; Scr.gets := []; Scr.warnings := [] |};
       result_rows := []; output := output_file; failed := failed_file |} in
  let '(w, finished) := process_all fuel (subset ids start end_) w0 in
  if finished then
    ({| browser := browser w; result_rows := result_rows w; output := output w;
        failed := Scr.save_failed_urls (Scr.failed_urls (browser w)) (failed w) |},
     true)
  else (w, false).

End Environment.

End ScrRun.

(** * The vocabulary of the properties of walks and runs *)

Module Cover.
Import Py.

(** What the resolver keeps for a URL whose future is done: the final URL,
    or [None] when the worker raised. *)
Definition outcome (worker : Resolver.Worker) (url : string) : option string :=
  match worker url with
  | Ok resolved => Some resolved
  | Raise _ => None
  end.

(** The articles of a listing page after which the walk of a conference
    goes on; [None] when the walk ends at that page (the fetch raises, the
    status is not 200, or no article is found). *)
Definition page_articles (urljoin : string → string → string) (server : Cwr.Server)
  (cid : string) (page : nat) : option (list (string * string * string)) :=
  match server (Cwr.listing_url cid page) with
  | Cwr.GetRaises _ => None
  | Cwr.GetResponse status html =>
      if decide (status ≠ 200) then None
      else
        match Cwr.parse_article_list urljoin html cid with
        | [] => None
        | articles => Some articles
        end
  end.

(** The scraper after the body of the loop of [process_conference] ran on a
    page with these articles. *)
Definition after_page (server : Cwr.Server) (SAVE_EVERY : nat) (cid : string)
  (page : nat) (articles : list (string * string * string)) (s : Cwr.Scraper)
  : Cwr.Scraper :=
  let r := Cwr.gather_articles server ((λ a, (cid, a.1.2, a.2)) <$> articles)
             (Cwr.log_request (Cwr.listing_url cid page) s) in
  Cwr.collect_results SAVE_EVERY r.1 r.2.

(** The requests of a walk over [k] pages that all hold articles, from page
    [page] on: each listing page, then its articles. *)
Fixpoint walk_requests (urljoin : string → string → string) (server : Cwr.Server)
  (cid : string) (page k : nat) : list string :=
  match k with
  | O => []
  | S k' =>
      Cwr.listing_url cid page
        :: (default [] (page_articles urljoin server cid page)).*2
        ++ walk_requests urljoin server cid (S page) k'
  end.

(** The scraper keeps its books: every article counted has its row in the
    sink, every failure was logged as an error, and every failure is about
    a URL that was requested. *)
Definition accounted (s : Cwr.Scraper) : Prop :=
  Cwr.processed_count s = length (Spec.emitted s)
  ∧ length (Cwr.errors s) = length (Cwr.failed_urls s)
  ∧ ∀ f, f ∈ Cwr.failed_urls s → Cwr.url f ∈ Cwr.requests s.

(** A URL that a run over the conferences [ids] may request: a listing page
    of one of them, or a link that one of its listing pages gave. *)
Definition walk_url (urljoin : string → string → string) (server : Cwr.Server)
  (fuel : nat) (ids : list string) (u : string) : Prop :=
  ∃ cid, cid ∈ ids
    ∧ ((∃ page, u = Cwr.listing_url cid page)
       ∨ u ∈ Spec.discovered_links urljoin server fuel cid 1).

(** [d.get(k)] on a [dict]. *)
Fixpoint dict_get {V} (d : dict V) (k : string) : option V :=
  match d with
  | [] => None
  | (k', v) :: d' => if decide (k' = k) then Some v else dict_get d' k
  end.

(** The affiliations that the author blocks of a page give for a name, in
    the order of the page. *)
Definition places_of (name : string) (blocks : list Cwr.AuthorBlock) : list string :=
  omap (λ block,
          name_text ← Cwr.name_tag block;
          if decide (strip name_text = name)
          then Some (from_option strip EmptyString (Cwr.place_tag block))
          else None) blocks.

(** The rows that [scr.py] holds at some point: those in the output file,
    those in the global buffer, and the local rows of the conference being
    walked. *)
Definition held (local_rows : list Cwr.Row) (w : ScrRun.World) : list Cwr.Row :=
  Cwr.data_rows (default [] (ScrRun.output w)) ++ ScrRun.result_rows w ++ local_rows.

(** The output file of [scr.py] is absent, or holds one header, at its
    start, followed by at least one row. *)
Definition well_formed_output (out : option (list Cwr.Line)) : Prop :=
  match out with
  | None => True
  | Some f => ∃ row rows, f = Cwr.HeaderLine :: (Cwr.DataLine <$> row :: rows)
  end.

(** A browser that loads every URL at once, and one whose first load of
    every three times out. *)
Definition always_loads : Scr.Driver := λ _ _, Scr.Loaded.

Definition scr_details (citation : string) : ScrRun.CitationDetails :=
  {| ScrRun.authors := EmptyString; ScrRun.conference := EmptyString;
     ScrRun.year := EmptyString; ScrRun.keywords := EmptyString;
     ScrRun.view_count := "0"; ScrRun.page_count := EmptyString |}.

(** The pages of [Samples.plain_site], as a browser shows them. *)
Definition plain_dom (url : string) (loads : nat) : Cwr.Html :=
  match Samples.plain_site url with
  | Cwr.GetResponse _ html => html
  | Cwr.GetRaises _ => Samples.no_page
  end.

(** The globals of [scr.py] before a run, without files. *)
Definition empty_world : ScrRun.World :=
  {| ScrRun.browser := Samples.idle; ScrRun.result_rows := [];
     ScrRun.output := None; ScrRun.failed := None |}.

(** A browser whose loads of the second article of [Samples.plain_site]
    all time out. *)
Definition loses_second : Scr.Driver := λ url _,
  if decide (url = "https://civilica.com/doc/2") then Scr.RaisesTimeoutException
  else Scr.Loaded.

(** A site on which every page lists an article. *)
Definition endless_site : Cwr.Server :=
  Samples.serves (Samples.listing [Samples.item "1. One" "doc/1"]).











(** The failure that [scr.py] records when the first listing page of
    conference 7 cannot be loaded. *)
Definition lost_listing : Scr.Failure :=
  {| Scr.conference_id := "7"; Scr.url := Cwr.listing_url "7" 1 |}.

End Cover.

(** * Properties *)

(** ** Facts on the Python primitives *)

Module PyFacts.
Import Py.

Lemma keys_dict_set {V} (d : dict V) k v :
  keys (dict_set d k v) = if decide (k ∈ keys d) then keys d else keys d ++ [k].
Proof.
  unfold keys. induction d as [|[k' v'] d IH]; [done|].
  cbn [dict_set]. rewrite fmap_cons. cbn [fst].
  destruct (decide (k' = k)) as [->|Hne].
  - rewrite decide_True by left. done.
  - rewrite fmap_cons, IH. cbn [fst].
    destruct (decide (k ∈ d.*1)) as [Hin|Hnin].
    + rewrite decide_True by (by right). done.
    + rewrite decide_False; [done|].
      intros [?|?]%elem_of_cons; congruence.
Qed.

Section DropDuplicates.
Context {A : Type} `{EqDecision A}.
Implicit Types seen l : list A.

Lemma drop_duplicates_from_ext seen1 seen2 l :
  (∀ x, x ∈ seen1 ↔ x ∈ seen2) →
  drop_duplicates_from seen1 l = drop_duplicates_from seen2 l.
Proof.
  revert seen1 seen2. induction l as [|x l IH]; intros seen1 seen2 Hext; [done|].
  simpl. destruct (decide (x ∈ seen1)) as [H1|H1].
  - rewrite decide_True by (by apply Hext). by apply IH.
  - rewrite decide_False by (by rewrite <- Hext). f_equal. apply IH.
    intros y. rewrite !elem_of_cons. by rewrite Hext.
Qed.

Lemma elem_of_drop_duplicates_from seen l x :
  x ∈ drop_duplicates_from seen l ↔ x ∈ l ∧ x ∉ seen.
Proof.
  revert seen. induction l as [|y l IH]; intros seen; simpl.
  - rewrite elem_of_nil. tauto.
  - destruct (decide (y ∈ seen)) as [Hy|Hy].
    + rewrite IH, elem_of_cons. split; [tauto|].
      intros [[->|?] ?]; tauto.
    + rewrite !elem_of_cons, IH, elem_of_cons. split.
      * intros [->|[? ?]]; tauto.
      * intros [[->|?] ?]; [tauto|].
        destruct (decide (x = y)); tauto.
Qed.

Lemma NoDup_drop_duplicates_from seen l : NoDup (drop_duplicates_from seen l).
Proof.
  revert seen. induction l as [|y l IH]; intros seen; simpl; [constructor|].
  destruct (decide (y ∈ seen)); [apply IH|].
  constructor; [|apply IH].
  rewrite elem_of_drop_duplicates_from, elem_of_cons. tauto.
Qed.

Lemma drop_duplicates_from_app seen l1 l2 :
  drop_duplicates_from seen (l1 ++ l2) =
    drop_duplicates_from seen l1 ++ drop_duplicates_from (l1 ++ seen) l2.
Proof.
  revert seen. induction l1 as [|y l1 IH]; intros seen; simpl; [done|].
  destruct (decide (y ∈ seen)) as [Hy|Hy]; rewrite IH; simpl; f_equal.
  - apply drop_duplicates_from_ext. intros x.
    rewrite !elem_of_app, elem_of_cons, elem_of_app. split; [tauto|].
    intros [->|?]; tauto.
  - f_equal. apply drop_duplicates_from_ext. intros x.
    rewrite !elem_of_app, !elem_of_cons, elem_of_app. tauto.
Qed.

Lemma drop_duplicates_from_fresh seen l :
  NoDup l → (∀ x, x ∈ l → x ∉ seen) → drop_duplicates_from seen l = l.
Proof.
  intros Hnd. revert seen. induction Hnd as [|y l Hy Hnd IH]; intros seen Hnew; [done|].
  simpl. rewrite decide_False by (apply (Hnew y); left).
  f_equal. apply IH. intros x Hx [->|Hseen]%elem_of_cons; [done|].
  apply (Hnew x); [by right | done].
Qed.

Lemma drop_duplicates_from_seen seen l :
  (∀ x, x ∈ l → x ∈ seen) → drop_duplicates_from seen l = [].
Proof.
  induction l as [|y l IH]; intros Hseen; [done|]. simpl.
  rewrite decide_True by (apply Hseen; by left).
  apply IH. intros x Hx. apply Hseen. by right.
Qed.

(** Merging the same rows once more changes nothing. *)
Lemma drop_duplicates_merge_again (existing failed : list A) :
  drop_duplicates (drop_duplicates (existing ++ failed) ++ failed)
  = drop_duplicates (existing ++ failed).
Proof.
  unfold drop_duplicates. rewrite drop_duplicates_from_app.
  set (merged := drop_duplicates_from [] (existing ++ failed)).
  rewrite (drop_duplicates_from_fresh [] merged).
  - rewrite (drop_duplicates_from_seen _ failed); [by rewrite app_nil_r|].
    intros x Hx. rewrite app_nil_r. unfold merged.
    rewrite elem_of_drop_duplicates_from, elem_of_app.
    split; [by right | by intros ?%elem_of_nil].
  - apply NoDup_drop_duplicates_from.
  - intros x _ ?%elem_of_nil. done.
Qed.

End DropDuplicates.

End PyFacts.

(** ** The walk over the listing pages of a conference ([cwr.py]) *)

Module CwrWalk.
Import Py Cwr Spec Samples.

(** C1, as the script has it: a failed fetch of a listing page ends the walk
    of the conference at once.  No article of that page is requested, the
    buffered rows and the output file are untouched.  When the fetch raised,
    exactly one failure is recorded, for the URL of the listing page; when
    the answer had a status other than 200, none is. *)
Theorem listing_failure_ends_walk urljoin server SAVE_EVERY fuel cid page s err :
  ListingFailure server (listing_url cid page) err →
  let url := listing_url cid page in
  let r := process_conference_from urljoin server SAVE_EVERY (S fuel) cid page s in
  r.2 = true
  ∧ requests r.1 = requests s ++ [url]
  ∧ result_rows r.1 = result_rows s
  ∧ output_csv r.1 = output_csv s
  ∧ failed_urls r.1 =
      failed_urls s ++
        match err with
        | Some e => [{| conference_id := cid; url := url; error := e |}]
        | None => []
        end.
Proof.
  intros Hfail; simpl.
  destruct Hfail as [e He | status html Hs Hne]; rewrite ?He, ?Hs.
  - by repeat split.
  - rewrite decide_True by done. simpl. by rewrite app_nil_r.
Qed.

Lemma listing_failure_ends_walk_witness :
  let url := listing_url "7" 1 in
  let r := process_conference join_relative (always_raises "timeout") 500 1 "7" fresh in
  r.2 = true
  ∧ requests r.1 = [url]
  ∧ result_rows r.1 = []
  ∧ output_csv r.1 = None
  ∧ failed_urls r.1 = [{| conference_id := "7"; url := url; error := "timeout" |}].
Proof.
  apply (listing_failure_ends_walk join_relative (always_raises "timeout")
           500 0 "7" 1 fresh (Some "timeout")).
  by apply listing_raises.
Defined.

(** C1 fails as stated: page 1 answers with status 404, the fetch has
    failed, and no failure is recorded for the listing URL. *)
Lemma listing_status_failure_not_recorded :
  let url := listing_url "7" 1 in
  let r := process_conference join_relative (always_status 404) 500 5 "7" fresh in
  ListingFailure (always_status 404) url None
  ∧ r.2 = true
  ∧ failed_urls r.1 = []
  ∧ ¬ ∃ f, failed_urls r.1 = [f] ∧ Cwr.url f = url.
Proof.
  split_and!.
  - by eapply listing_status.
  - reflexivity.
  - reflexivity.
  - intros [f [Hf _]]. vm_compute in Hf. discriminate.
Qed.

End CwrWalk.

(** ** Fetching with retries ([scr.py]) and without ([cwr.py]) *)

Module Fetching.
Import Py Spec Samples.

Lemma retry_get_from_exhausted driver url cid remaining :
  (∀ n, driver url n ≠ Scr.Loaded) →
  ∀ attempt st,
    Scr.retry_get_from driver remaining attempt url cid st =
      (false,
       {| Scr.failed_urls :=
            Scr.failed_urls st ++ [{| Scr.conference_id := cid; Scr.url := url |}];
          Scr.gets := Scr.gets st ++ replicate remaining url;
          Scr.warnings :=
            Scr.warnings st ++ ((λ k, (k, url)) <$> seq attempt remaining) |}).
Proof.
  intros Hfail. induction remaining as [|k IH]; intros attempt st; simpl.
  - by rewrite !app_nil_r.
  - specialize (Hfail (length (Scr.gets st))).
    destruct (driver url (length (Scr.gets st))); [done | |];
      rewrite IH; simpl; by rewrite <- !app_assoc.
Qed.

(** Whatever the browser does, [retry_get] appends an entry for the URL
    exactly when it returns [False], and then exactly one. *)
Lemma retry_get_from_records_failure driver url cid remaining attempt st :
  let r := Scr.retry_get_from driver remaining attempt url cid st in
  Scr.failed_urls r.2 =
    Scr.failed_urls st ++
      (if r.1 then [] else [{| Scr.conference_id := cid; Scr.url := url |}]).
Proof.
  revert attempt st. induction remaining as [|k IH]; intros attempt st; simpl; [done|].
  destruct (driver url (length (Scr.gets st))); simpl; [by rewrite app_nil_r | ..];
    match goal with
    | |- context [Scr.retry_get_from _ _ ?a _ _ ?st'] => exact (IH a st')
    end.
Qed.

(** C3, as the scripts have it: when every load of the URL raises one of the
    exceptions that [retry_get] catches, [retry_get] with [retries = 3] loads
    the URL exactly three times (attempts 1, 2 and 3), then appends one entry
    for the URL to [failed_urls] and returns [False]; with [retries = n] it
    makes exactly [n] attempts. *)
Theorem retry_get_exhausts_retries driver retries url cid st :
  (∀ n, driver url n ≠ Scr.Loaded) →
  let r := Scr.retry_get driver retries url cid st in
  r.1 = false
  ∧ Scr.gets r.2 = Scr.gets st ++ replicate (Z.to_nat retries) url
  ∧ (retries = 3 → Scr.gets r.2 = Scr.gets st ++ [url; url; url])
  ∧ Scr.warnings r.2 =
      Scr.warnings st ++ ((λ k, (k, url)) <$> seq 1 (Z.to_nat retries))
  ∧ Scr.failed_urls r.2 =
      Scr.failed_urls st ++ [{| Scr.conference_id := cid; Scr.url := url |}].
Proof.
  intros Hfail. unfold Scr.retry_get.
  rewrite (retry_get_from_exhausted _ _ _ _ Hfail). simpl.
  split_and!; try done. by intros ->.
Qed.

Lemma retry_get_exhausts_retries_witness :
  let r := Scr.retry_get always_timeout 3 "u" "7" idle in
  r.1 = false
  ∧ Scr.gets r.2 = [] ++ replicate (Z.to_nat 3) "u"
  ∧ (3 = 3 → Scr.gets r.2 = [] ++ ["u"; "u"; "u"])
  ∧ Scr.warnings r.2 = [] ++ ((λ k, (k, "u")) <$> seq 1 (Z.to_nat 3))
  ∧ Scr.failed_urls r.2 = [] ++ [{| Scr.conference_id := "7"; Scr.url := "u" |}].
Proof.
  apply (retry_get_exhausts_retries always_timeout 3 "u" "7" idle).
  intros n. unfold always_timeout. discriminate.
Defined.

(** C3 fails as stated: the asynchronous scraper, whose [MAX_RETRIES] is 3,
    requests an article that always answers 503 exactly once, and records
    the failure at once. *)
Lemma status_503_is_not_retried :
  let r := Cwr.process_article (always_status 503) "7" "t" "u" fresh in
  Cwr.MAX_RETRIES = 3
  ∧ r.1 = None
  ∧ Cwr.requests r.2 = ["u"]
  ∧ length (Cwr.requests r.2) ≠ 3%nat
  ∧ Cwr.failed_urls r.2 =
      [{| Cwr.conference_id := "7"; Cwr.url := "u"; Cwr.error := "Status 503" |}].
Proof. by vm_compute. Qed.

End Fetching.

(** ** The record of an article ([cwr.py]) *)

Module Items.
Import Py Cwr Spec Samples PyFacts.

Lemma keys_foldl_add_author blocks (d : dict string) :
  keys (foldl add_author d blocks) =
    keys d ++ drop_duplicates_from (keys d)
                (omap (λ block, strip <$> name_tag block) blocks).
Proof.
  revert d. induction blocks as [|b blocks IH]; intros d; simpl.
  - by rewrite app_nil_r.
  - rewrite IH. unfold add_author. destruct (name_tag b) as [n|]; simpl; [|done].
    rewrite keys_dict_set. destruct (decide (strip n ∈ keys d)); [done|].
    rewrite <- app_assoc. simpl. do 2 f_equal.
    apply drop_duplicates_from_ext. intros x.
    rewrite elem_of_app, !elem_of_cons, elem_of_nil. tauto.
Qed.

(** The keys of the dictionary of authors are the names of the page, each
    at its first place. *)
Lemma keys_collect_authors html :
  keys (collect_authors (author_blocks html)) = drop_duplicates (discovered_authors html).
Proof. apply (keys_foldl_add_author (author_blocks html) []). Qed.

Lemma collect_authors_unnamed blocks :
  Forall (λ block, name_tag block = None) blocks → collect_authors blocks = [].
Proof.
  intros Hunnamed. unfold collect_authors. generalize (@nil (string * string)).
  induction Hunnamed as [|b blocks Hb _ IH]; intros d; simpl; [done|].
  rewrite Hb. apply IH.
Qed.

(** C10: the [Authors] column of every row that [process_article] returns is
    the comma-space join of the keys of the dictionary whose JSON text is in
    the [Authors_Map] column, and these keys are the author names of the
    page in the order of their first appearance. *)
Theorem authors_column_joins_map_keys server cid title link s row s' :
  process_article server cid title link s = (Some row, s') →
  ∃ html,
    server link = GetResponse 200 html
    ∧ let authors_map := collect_authors (author_blocks html) in
      Authors_Map row = json_dumps authors_map
      ∧ Authors row = join ", " (keys authors_map)
      ∧ keys authors_map = drop_duplicates (discovered_authors html).
Proof.
  unfold process_article. intros Hrow.
  destruct (server link) as [e|status html]; [done|].
  destruct (decide (status ≠ 200)) as [|Heq%dec_stable]; [done|]. subst status.
  exists html. split; [done|].
  unfold parse_article_page in Hrow.
  destruct (citation_block html) as [[p|]|]; simplify_eq/=;
    split_and!; try done; apply keys_collect_authors.
Qed.

Lemma authors_column_joins_map_keys_witness :
  ∃ html,
    serves authors_page "u" = GetResponse 200 html
    ∧ let authors_map := collect_authors (author_blocks html) in
      Authors_Map authors_row = json_dumps authors_map
      ∧ Authors authors_row = join ", " (keys authors_map)
      ∧ keys authors_map = drop_duplicates (discovered_authors html).
Proof.
  apply (authors_column_joins_map_keys (serves authors_page) "7" "t" "u"
           fresh authors_row (count_processed (log_request "u" fresh))).
  reflexivity.
Defined.

Example authors_row_columns :
  Authors authors_row = "Ali, Sara"
  ∧ Authors_Map authors_row
    = "{" +:+ json_string "Ali" +:+ ": " +:+ json_string "Shiraz" +:+ ", "
          +:+ json_string "Sara" +:+ ": " +:+ json_string EmptyString +:+ "}"
  ∧ Abstract authors_row = "An abstract."
  ∧ View_Count authors_row = "12"
  ∧ Keywords authors_row = "crawl, spec".
Proof. by vm_compute. Qed.

(** C5, as the script has it: an article page that is fetched with status
    200, and whose citation block, if there is one, holds a paragraph, gives
    a row and no failure.  A missing abstract, citation or keyword container
    gives the empty string; without a named author block [Authors] is empty
    and [Authors_Map] is the empty JSON object; [Conference_Name], [Year]
    and [Page_Count] are always empty; a missing view counter gives 0. *)
Theorem missing_fields_take_defaults server cid title link s html :
  server link = GetResponse 200 html →
  citation_block html ≠ Some None →
  let r := process_article server cid title link s in
  failed_urls r.2 = failed_urls s
  ∧ errors r.2 = errors s
  ∧ ∃ row,
      r.1 = Some row
      ∧ Conference_ID row = cid ∧ Link row = link
      ∧ (abstract_div html = None → Abstract row = EmptyString)
      ∧ (citation_block html = None → Citation row = EmptyString)
      ∧ (Forall (λ block, name_tag block = None) (author_blocks html) →
         Authors row = EmptyString ∧ Authors_Map row = "{}")
      ∧ (extract_keywords_from_page html = None → Keywords row = EmptyString)
      ∧ (view_tag html = None → View_Count row = "0")
      ∧ Conference_Name row = EmptyString
      ∧ Year row = EmptyString
      ∧ Page_Count row = EmptyString.
Proof.
  intros Hget Hcit. unfold process_article. rewrite Hget.
  rewrite decide_False by (intros Hne; by apply Hne).
  unfold parse_article_page.
  destruct (citation_block html) as [[p|]|] eqn:Hc; [| done |]; simpl;
    (split; [done|]); (split; [done|]); eexists; (split; [done|]);
    unfold Conference_ID, Link, Abstract, Citation, Authors, Authors_Map, Keywords,
      View_Count, Conference_Name, Year, Page_Count, column; simpl;
    split_and!; try done.
  all: try (by intros ->).
  all: intros Hnone; by rewrite (collect_authors_unnamed _ Hnone).
Qed.

Lemma missing_fields_take_defaults_witness :
  let r := process_article (serves no_page) "7" "t" "u" fresh in
  failed_urls r.2 = []
  ∧ errors r.2 = []
  ∧ ∃ row,
      r.1 = Some row
      ∧ Conference_ID row = "7" ∧ Link row = "u"
      ∧ (abstract_div no_page = None → Abstract row = EmptyString)
      ∧ (citation_block no_page = None → Citation row = EmptyString)
      ∧ (Forall (λ block, name_tag block = None) (author_blocks no_page) →
         Authors row = EmptyString ∧ Authors_Map row = "{}")
      ∧ (extract_keywords_from_page no_page = None → Keywords row = EmptyString)
      ∧ (view_tag no_page = None → View_Count row = "0")
      ∧ Conference_Name row = EmptyString
      ∧ Year row = EmptyString
      ∧ Page_Count row = EmptyString.
Proof.
  apply (missing_fields_take_defaults (serves no_page) "7" "t" "u" fresh no_page).
  - reflexivity.
  - simpl. discriminate.
Defined.

(** C5 fails as stated: a page from which every field is missing gives a
    row whose [View_Count] is 0, not the empty string. *)
Lemma missing_view_count_is_not_empty :
  let r := process_article (serves no_page) "7" "t" "u" fresh in
  view_tag no_page = None
  ∧ r.1 = Some ["7"; "t"; "u"; EmptyString; EmptyString; EmptyString; EmptyString;
                EmptyString; EmptyString; "0"; EmptyString; "{}"]
  ∧ View_Count (default [] r.1) ≠ EmptyString.
Proof. by vm_compute. Qed.

(** The slip beside it: a citation block without a paragraph makes
    [parse_article_page] raise, and the article is recorded as failed. *)
Example citation_without_paragraph_fails :
  let r := process_article (serves broken_citation_page) "7" "t" "u" fresh in
  r.1 = None
  ∧ failed_urls r.2 =
      [{| conference_id := "7"; url := "u";
          error := "'NoneType' object has no attribute 'text'" |}].
Proof. by vm_compute. Qed.

End Items.

(** ** The range check of [main] ([cwr.py]) *)

Module Config.
Import Py Cwr Spec Samples.

(** C6, as the script has it: with [start < 0] or [end <= start], [main]
    logs the error and returns before a scraper is made: no request is
    begun, the output file and the failure log are untouched, and the
    script ends with exit status 0. *)
Theorem invalid_range_returns_before_any_work
  urljoin server SAVE_EVERY fuel args input files :
  invalid_range args →
  let r := main urljoin server SAVE_EVERY fuel args input files in
  requests r.1 = []
  ∧ output_csv r.1 = files.1
  ∧ failed_urls_log r.1 = files.2
  ∧ result_rows r.1 = []
  ∧ failed_urls r.1 = []
  ∧ errors r.1 = [INVALID_RANGE]
  ∧ r.2 = Exited 0.
Proof.
  intros Hbad. unfold main. rewrite decide_True by exact Hbad. by repeat split.
Qed.

Lemma invalid_range_returns_before_any_work_witness :
  let r := main join_relative (always_status 200) 500 5
             {| start := 4; end_ := 4 |} (Some one_conference) (None, None) in
  requests r.1 = []
  ∧ output_csv r.1 = None
  ∧ failed_urls_log r.1 = None
  ∧ result_rows r.1 = []
  ∧ failed_urls r.1 = []
  ∧ errors r.1 = [INVALID_RANGE]
  ∧ r.2 = Exited 0.
Proof.
  apply (invalid_range_returns_before_any_work join_relative
           (always_status 200) 500 5 {| start := 4; end_ := 4 |}
           (Some one_conference) (None, None)).
  right. simpl. lia.
Defined.

(** C6 fails as stated: with [start = -1] the script ends with exit status
    0, not with a non-zero one. *)
Lemma invalid_range_exits_with_zero :
  let args := {| start := -1; end_ := 5 |} in
  let r := main join_relative (always_status 200) 500 5
             args (Some one_conference) (None, None) in
  invalid_range args
  ∧ r.2 = Exited 0
  ∧ ¬ ∃ status, r.2 = Exited status ∧ status ≠ 0.
Proof.
  split_and!.
  - left. simpl. lia.
  - reflexivity.
  - intros (status & Hexit & Hne). vm_compute in Hexit. by simplify_eq.
Qed.

(** The exit status is 1 when the data set cannot be read, and 0 after a
    run that ends. *)
Example unreadable_input_exits_with_one :
  (main join_relative (always_status 200) 500 5 first_conference None (None, None)).2
  = Exited 1.
Proof. reflexivity. Qed.

Example valid_run_exits_with_zero :
  let r := main join_relative (always_status 200) 500 5
             first_conference (Some one_conference) (None, None) in
  r.2 = Exited 0
  ∧ requests r.1 = [listing_url "7" 1]
  ∧ output_csv r.1 = Some [HeaderLine].
Proof. by vm_compute. Qed.

End Config.

(** ** The failure log ([scr.py] and [cwr.py]) *)

Module FailureLog.
Import Py Spec Samples Cover PyFacts.

Lemma to_csv_DataFrame failed : Scr.to_csv (Scr.DataFrame failed) = failed.
Proof.
  unfold Scr.to_csv, Scr.DataFrame. rewrite <- list_fmap_compose.
  rewrite <- (list_fmap_id failed) at 2. apply list_fmap_ext. by intros i [cid u] _.
Qed.

(** A log that [scr.py] writes holds a line for every failure of the run;
    without an earlier log, it holds the failures as they are. *)
Lemma save_failed_urls_keeps_failures failed file :
  failed ≠ [] →
  ∃ log, Scr.save_failed_urls failed file = Some log
    ∧ Forall (λ f, f ∈ log) failed
    ∧ (file = None → log = failed).
Proof.
  intros Hne. destruct failed as [|f0 failed]; [done|].
  unfold Scr.save_failed_urls. eexists. split; [done|]. split.
  - apply Forall_forall. intros f Hf. destruct file as [file|].
    + apply list_elem_of_fmap.
      exists (StrCell (Scr.conference_id f), StrCell (Scr.url f)).
      split; [by destruct f|].
      unfold drop_duplicates. rewrite elem_of_drop_duplicates_from, elem_of_app.
      split; [|by intros ?%elem_of_nil]. right.
      apply list_elem_of_fmap. by exists f.
    + by rewrite to_csv_DataFrame.
  - intros ->. apply to_csv_DataFrame.
Qed.

(** C7 at a log with numeric ids.  The log holds the lines [7,a] and [7,b];
    the run failed on [b] for conference 7 again.  Read back, the ids of
    the log are numbers, while the id of the run is a string: no line is
    taken for a duplicate, and [7,b] is written twice.  In the same way a
    run that fails as the one before it did writes each of its failures a
    second time. *)
Theorem merged_log_repeats_logged_failures :
  let existing := [failure_a; failure_b] in
  let merged := Scr.save_failed_urls [failure_b] (Some existing) in
  let run failed_file :=
    ScrRun.main always_timeout plain_dom join_relative scr_details 2 100 5
      one_conference 0 None None failed_file in
  let first := run None in
  let second := run (ScrRun.failed first.1) in
  Scr.read_csv existing = [(IntCell 7, StrCell "a"); (IntCell 7, StrCell "b")]
  ∧ Scr.DataFrame [failure_b] = [(StrCell "7", StrCell "b")]
  ∧ merged = Some [failure_a; failure_b; failure_b]
  ∧ merged ≠ Some (drop_duplicates (existing ++ [failure_b]))
  ∧ ScrRun.failed first.1 = Some [lost_listing]
  ∧ ScrRun.failed second.1 = Some [lost_listing; lost_listing].
Proof. by vm_compute. Qed.

(** The first log of [scr.py] is written as it is, duplicates included. *)
Example first_log_keeps_duplicates :
  Scr.save_failed_urls [failure_b; failure_b] None = Some [failure_b; failure_b].
Proof. reflexivity. Qed.

(** [cwr.py] merges nothing: it writes the failures of the run over the
    existing log.  Here the log held one entry; conference 7 is walked
    twice and fails twice; the log ends with the two equal entries of the
    run, and without the entry it held. *)
Lemma async_failure_log_is_overwritten :
  let old := {| Cwr.conference_id := "3"; Cwr.url := "x"; Cwr.error := "e" |} in
  let new := {| Cwr.conference_id := "7"; Cwr.url := Cwr.listing_url "7" 1;
                Cwr.error := "boom" |} in
  let r := Cwr.main join_relative (always_raises "boom") 500 5
             {| Cwr.start := 0; Cwr.end_ := 2 |} (Some (one_conference ++ one_conference))
             (None, Some [old]) in
  r.2 = Cwr.Exited 0
  ∧ Cwr.failed_urls_log r.1 = Some [new; new]
  ∧ Cwr.failed_urls_log r.1 ≠ Some (drop_duplicates ([old] ++ [new; new])).
Proof. by vm_compute. Qed.

End FailureLog.

(** ** Resuming the redirect resolver ([redirect_resolver.py]) *)

Module Resume.
Import Py Resolver Spec Samples.

Lemma results_only_hold_submitted worker save_every sliced_df total urls st x :
  (results (foldl (complete worker save_every sliced_df total) st urls)) !! x ≠ None →
  x ∈ urls ∨ results st !! x ≠ None.
Proof.
  revert st. induction urls as [|u urls IH]; intros st; simpl; [by right|].
  intros [Hin|Hst]%IH; [left; by right|].
  destruct (decide (u = x)) as [->|Hne]; [left; by left|].
  right. unfold complete in Hst. simpl in Hst.
  destruct (worker u); by rewrite lookup_insert_ne in Hst.
Qed.

Lemma done_keys_have_no_result worker save_every sliced_df saved url :
  url ∈ saved_keys saved →
  results (resolve_all worker save_every sliced_df
             (to_submit (load_done (Some saved)) sliced_df)) !! url = None.
Proof.
  intros Hdone.
  destruct (results _ !! url) eqn:Hres; [exfalso | done].
  assert (Hsome : results (resolve_all worker save_every sliced_df
            (to_submit (load_done (Some saved)) sliced_df)) !! url ≠ None)
    by (rewrite Hres; discriminate).
  apply results_only_hold_submitted in Hsome as [Hin|Hempty].
  - apply list_elem_of_filter in Hin as [Hnot _]. apply Hnot.
    by apply elem_of_list_to_set.
  - simpl in Hempty. by rewrite lookup_empty in Hempty.
Qed.

(** The part of C2 that holds: no key of the saved output is submitted. *)
Lemma done_keys_are_not_submitted worker df saved start_index end_index save_every url :
  url ∈ saved_keys saved →
  url ∉ submitted (main worker df (Some saved) start_index end_index save_every).
Proof.
  intros Hdone. unfold main, to_submit. simpl.
  rewrite list_elem_of_filter. intros [Hnot _]. apply Hnot.
  by apply elem_of_list_to_set.
Qed.

(** The defect behind C2, in general: every row whose key is in the saved
    output has an empty [Final URL] in the output that [main] leaves,
    whatever the saved output held for it. *)
Lemma done_keys_end_unresolved worker df saved start_index end_index save_every row url :
  row ∈ final_output (main worker df (Some saved) start_index end_index save_every) →
  website (source row) = Some url →
  url ∈ saved_keys saved →
  final_url row = None.
Proof.
  unfold final_output, main. cbn [written]. rewrite last_snoc. cbn [default].
  intros (r & -> & _)%list_elem_of_fmap Hkey Hdone. cbn [final_url source] in *.
  rewrite Hkey. cbn [mbind option_bind].
  by rewrite done_keys_have_no_result.
Qed.

(** C2 at a resumed run: the saved output holds A and B resolved, the work
    set is A, B, C.  Only C is submitted; the output left by the run holds C
    resolved, and A and B with an empty [Final URL]: their entries are not
    the saved ones. *)
Theorem resumed_run_drops_saved_entries :
  let saved := [resolved "A" "A1"; resolved "B" "B1"] in
  let df := [input_row "A"; input_row "B"; input_row "C"] in
  let r := main follows df (Some saved) 0 None 100 in
  submitted r = ["C"]
  ∧ final_output r = [unresolved "A"; unresolved "B"; resolved "C" "C/final"]
  ∧ (resolved "A" "A1" ∉ final_output r)
  ∧ (resolved "B" "B1" ∉ final_output r).
Proof.
  assert (Hrun : main follows [input_row "A"; input_row "B"; input_row "C"]
            (Some [resolved "A" "A1"; resolved "B" "B1"]) 0 None 100
          = {| submitted := ["C"];
               written := [ [unresolved "A"; unresolved "B"; resolved "C" "C/final"];
                            [unresolved "A"; unresolved "B"; resolved "C" "C/final"] ] |})
    by (by vm_compute).
  simpl. rewrite Hrun. unfold final_output. simpl.
  split_and!; try done;
    rewrite !elem_of_cons, elem_of_nil; unfold resolved, unresolved;
    intros [?|[?|[?|[]]]]; discriminate.
Qed.

End Resume.

(** ** The result sink of the asynchronous scraper ([cwr.py]) *)

Module Sink.
Import Py Cwr Spec Samples.

Lemma data_rows_app f g : data_rows (f ++ g) = data_rows f ++ data_rows g.
Proof. apply omap_app. Qed.

Lemma data_rows_DataLine rows : data_rows (DataLine <$> rows) = rows.
Proof. induction rows as [|r rows IH]; simpl; [done | by f_equal]. Qed.

Lemma header_count_DataLine rows : header_count (DataLine <$> rows) = 0%nat.
Proof. induction rows as [|r rows IH]; [done | exact IH]. Qed.

Lemma headed_header_count s f :
  headed s → output_csv s = Some f → header_count f = 1%nat ∧ head f = Some HeaderLine.
Proof.
  intros [rows Hf] Hs. rewrite Hf in Hs. simplify_eq. split; [|done].
  unfold header_count. rewrite filter_cons_True by done. simpl.
  f_equal. apply header_count_DataLine.
Qed.

(** What [save_results] writes. *)
Lemma save_results_spec s :
  result_rows (save_results s) = []
  ∧ emitted (save_results s) = emitted s
  ∧ failed_urls (save_results s) = failed_urls s
  ∧ failed_urls_log (save_results s) = failed_urls_log s
  ∧ (∀ f, output_csv s = Some f →
       output_csv (save_results s) = Some (f ++ (DataLine <$> result_rows s))).
Proof.
  unfold save_results, emitted.
  destruct (result_rows s) as [|r rows] eqn:Hrows.
  - rewrite Hrows. split_and!; try done. intros f ->. by rewrite app_nil_r.
  - simpl. split_and!; try done.
    + rewrite app_nil_r, data_rows_app. simpl. rewrite data_rows_DataLine.
      by destruct (output_csv s).
    + by intros f ->.
Qed.

Lemma save_results_headed s : headed s → headed (save_results s).
Proof.
  intros [rows Hf].
  destruct (save_results_spec s) as (_ & _ & _ & _ & Hfile).
  exists (rows ++ result_rows s). rewrite (Hfile _ Hf). by rewrite fmap_app.
Qed.

(** What the end of the loop body of [process_conference] does to the
    sink. *)
Lemma collect_results_spec SAVE_EVERY results s :
  let s' := collect_results SAVE_EVERY results s in
  let buffered := result_rows s ++ omap id results in
  emitted s' = emitted s ++ omap id results
  ∧ failed_urls s' = failed_urls s
  ∧ failed_urls_log s' = failed_urls_log s
  ∧ ((SAVE_EVERY ≤ length buffered)%nat →
       result_rows s' = []
       ∧ ∀ f, output_csv s = Some f → output_csv s' = Some (f ++ (DataLine <$> buffered)))
  ∧ ((length buffered < SAVE_EVERY)%nat →
       result_rows s' = buffered ∧ output_csv s' = output_csv s).
Proof.
  unfold collect_results. simpl.
  set (s1 := set_rows (result_rows s ++ omap id results) (output_csv s) s).
  assert (Hem : emitted s1 = emitted s ++ omap id results)
    by (unfold emitted; simpl; by rewrite app_assoc).
  destruct (decide (SAVE_EVERY ≤ length (result_rows s ++ omap id results))%nat)
    as [Hreach|Hbelow].
  - destruct (save_results_spec s1) as (Hrows & Hemit & Hfail & Hlog & Hfile).
    split_and!; try done; [by rewrite Hemit | lia].
  - split_and!; try done; lia.
Qed.

Lemma collect_results_headed SAVE_EVERY results s :
  headed s → headed (collect_results SAVE_EVERY results s).
Proof.
  intros Hh. unfold collect_results.
  set (s1 := set_rows (result_rows s ++ omap id results) (output_csv s) s).
  assert (headed s1) by exact Hh.
  destruct (decide _); [by apply save_results_headed | done].
Qed.

Lemma sink_steps_spec SAVE_EVERY steps s :
  let s' := foldl (sink_step SAVE_EVERY) s steps in
  (headed s → headed s')
  ∧ emitted s' = emitted s ++ (steps ≫= collected).
Proof.
  revert s. induction steps as [|step steps IH]; intros s; simpl.
  { split; [done | by rewrite app_nil_r]. }
  destruct (IH (sink_step SAVE_EVERY s step)) as [Hhead Hem].
  rewrite Hem, app_assoc. destruct step as [results|]; simpl.
  - destruct (collect_results_spec SAVE_EVERY results s) as (-> & _).
    split; [|done]. intros Hh. by apply Hhead, collect_results_headed.
  - destruct (save_results_spec s) as (_ & -> & _). rewrite app_nil_r.
    split; [|done]. intros Hh. by apply Hhead, save_results_headed.
Qed.

End Sink.

(** ** The rows emitted by a walk ([cwr.py]) *)

Module Emission.
Import Py Cwr Spec Samples Sink.

Lemma process_article_same_sink server cid title link s :
  same_sink s (process_article server cid title link s).2.
Proof.
  unfold process_article, same_sink.
  destruct (server link) as [e|status html]; [done|].
  destruct (decide (status ≠ 200)); [done|].
  by destruct (parse_article_page html).
Qed.

Lemma process_article_key server cid title link s row :
  (process_article server cid title link s).1 = Some row → key row = (cid, link).
Proof.
  unfold process_article.
  destruct (server link) as [e|status html]; [done|].
  destruct (decide (status ≠ 200)); [done|].
  destruct (parse_article_page html); [|done].
  simpl. by intros [= <-].
Qed.

Lemma gather_articles_spec server articles s :
  let r := gather_articles server articles s in
  same_sink s r.2
  ∧ key <$> omap id r.1 `sublist_of` (λ a, (a.1.1, a.2)) <$> articles.
Proof.
  revert s. induction articles as [|[[cid title] link] articles IH]; intros s; simpl.
  - by split.
  - pose proof (process_article_same_sink server cid title link s) as Hsink.
    pose proof (process_article_key server cid title link s) as Hkey.
    destruct (process_article server cid title link s) as [r s1]. simpl in *.
    specialize (IH s1).
    destruct (gather_articles server articles s1) as [rs s2]. simpl in *.
    destruct IH as [Hsink2 Hsub]. split.
    + unfold same_sink in *. destruct Hsink2 as (-> & -> & ->). exact Hsink.
    + destruct r as [row|]; simpl.
      * rewrite (Hkey row eq_refl). by apply sublist_skip.
      * by apply sublist_cons.
Qed.

(** The walk of a conference only adds rows to the sink, and the keys of
    the rows it adds are among the links it discovered, in their order. *)
Lemma process_conference_from_spec urljoin server SAVE_EVERY fuel cid page s :
  let r := process_conference_from urljoin server SAVE_EVERY fuel cid page s in
  (headed s → headed r.1)
  ∧ failed_urls_log r.1 = failed_urls_log s
  ∧ ∃ new,
      emitted r.1 = emitted s ++ new
      ∧ key <$> new `sublist_of`
          (λ l, (cid, l)) <$> discovered_links urljoin server fuel cid page.
Proof.
  revert page s. induction fuel as [|fuel IH]; intros page s.
  { simpl. split_and!; try done. exists []. by rewrite app_nil_r. }
  cbn [process_conference_from discovered_links].
  destruct (server (listing_url cid page)) as [e|status html].
  { simpl. split_and!; try done. exists []. by rewrite app_nil_r. }
  destruct (decide (status ≠ 200)).
  { simpl. split_and!; try done. exists []. by rewrite app_nil_r. }
  destruct (parse_article_list urljoin html cid) as [|a articles] eqn:Hlist.
  { simpl. split_and!; try done. exists []. by rewrite app_nil_r. }
  cbn beta iota.
  set (tasks := (λ a, (cid, a.1.2, a.2)) <$> a :: articles).
  pose proof (gather_articles_spec server tasks (log_request (listing_url cid page) s))
    as [(Hrows & Hfile & Hlog) Hsub].
  destruct (gather_articles server tasks (log_request (listing_url cid page) s))
    as [results s1]. cbn [fst snd] in *.
  pose proof (collect_results_spec SAVE_EVERY results s1) as (Hem & _ & Hlog2 & _).
  specialize (IH (S page) (collect_results SAVE_EVERY results s1)).
  destruct IH as (Hhead & Hlog3 & new & Hnew & Hsubnew).
  split_and!.
  - intros Hh. apply Hhead, collect_results_headed.
    destruct Hh as [rows Hh]. exists rows. by rewrite Hfile.
  - by rewrite Hlog3, Hlog2, Hlog.
  - exists (omap id results ++ new). split.
    + rewrite Hnew, Hem. unfold emitted. rewrite Hrows, Hfile. simpl.
      by rewrite !app_assoc.
    + rewrite !fmap_app. apply sublist_app; [|done].
      unfold tasks in Hsub. rewrite <- list_fmap_compose in Hsub.
      by rewrite <- list_fmap_compose.
Qed.

Lemma process_all_spec urljoin server SAVE_EVERY fuel ids s :
  let r := process_all urljoin server SAVE_EVERY fuel ids s in
  (headed s → headed r.1)
  ∧ failed_urls_log r.1 = failed_urls_log s
  ∧ ∃ new,
      emitted r.1 = emitted s ++ new
      ∧ key <$> new `sublist_of` run_links urljoin server fuel ids.
Proof.
  revert s. induction ids as [|cid ids IH]; intros s.
  { simpl. split_and!; try done. exists []. by rewrite app_nil_r. }
  cbn [process_all]. unfold process_conference, run_links. rewrite bind_cons.
  pose proof (process_conference_from_spec urljoin server SAVE_EVERY fuel cid 1 s)
    as (Hhead & Hlog & new & Hnew & Hsub).
  destruct (process_conference_from urljoin server SAVE_EVERY fuel cid 1 s)
    as [s1 finished]. cbn [fst snd] in *.
  destruct finished.
  - destruct (IH s1) as (Hhead2 & Hlog2 & new2 & Hnew2 & Hsub2).
    split_and!; [by auto | by rewrite Hlog2 |].
    exists (new ++ new2). split.
    + by rewrite Hnew2, Hnew, app_assoc.
    + rewrite fmap_app. by apply sublist_app.
  - cbn [fst]. split_and!; [done | done |].
    exists new. split; [done|]. by apply sublist_inserts_r.
Qed.

Lemma NoDup_run_links urljoin server fuel ids :
  NoDup ids →
  (∀ cid, cid ∈ ids → NoDup (discovered_links urljoin server fuel cid 1)) →
  NoDup (run_links urljoin server fuel ids).
Proof.
  intros Hids Hlinks. apply NoDup_bind; [| |done].
  - intros cid1 cid2 k _ _ (l1 & -> & _)%list_elem_of_fmap (l2 & Heq & _)%list_elem_of_fmap.
    by simplify_eq.
  - intros cid Hcid. apply NoDup_fmap_2; [|by apply Hlinks].
    by intros l1 l2 [= ->].
Qed.

Lemma run_spec urljoin server SAVE_EVERY fuel args df s :
  ∃ s' finished,
    run urljoin server SAVE_EVERY fuel args (Some df) s = Ok (s', finished)
    ∧ headed s'
    ∧ (finished = true → result_rows s' = [])
    ∧ ∃ new,
        emitted s' = result_rows s ++ new
        ∧ key <$> new `sublist_of` run_links urljoin server fuel (conferences args df).
Proof.
  unfold run. fold (conferences args df).
  set (s0 := set_rows (result_rows s) (Some [HeaderLine]) s).
  pose proof (process_all_spec urljoin server SAVE_EVERY fuel (conferences args df) s0)
    as (Hhead & _ & new & Hnew & Hsub).
  destruct (process_all urljoin server SAVE_EVERY fuel (conferences args df) s0)
    as [s1 finished]. cbn [fst snd] in *.
  assert (Hhead1 : headed s1) by (apply Hhead; by exists []).
  destruct finished.
  - destruct (save_results_spec s1) as (Hrows & Hem & _).
    pose proof (save_results_headed s1 Hhead1) as Hhead2.
    eexists _, true. split; [done|].
    destruct (failed_urls (save_results s1)); split_and!; try done;
      exists new; (split; [|done]);
      (transitivity (emitted (save_results s1)); [done|]); by rewrite Hem, Hnew.
  - eexists _, false. split; [done|]. split_and!; try done.
    exists new. split; [|done]. by rewrite Hnew.
Qed.

End Emission.

(** ** The claims on the sink and on the emitted rows ([cwr.py]) *)

Module Runs.
Import Py Cwr Spec Samples Sink Emission.

(** C8: whatever the site answers, the output file that [run] leaves holds
    exactly one header, at its start, and only rows after it; a save to a
    file that exists only appends rows; and after the header was written,
    every sequence of collected pages and saves leaves one header, at the
    start of the file, followed by rows. *)
Theorem output_has_one_leading_header urljoin server SAVE_EVERY fuel args df s :
  (∃ s' finished rows,
     run urljoin server SAVE_EVERY fuel args (Some df) s = Ok (s', finished)
     ∧ output_csv s' = Some (HeaderLine :: (DataLine <$> rows))
     ∧ header_count (HeaderLine :: (DataLine <$> rows)) = 1%nat)
  ∧ (∀ s f, output_csv s = Some f →
       output_csv (save_results s) = Some (f ++ (DataLine <$> result_rows s))
       ∧ header_count (f ++ (DataLine <$> result_rows s)) = header_count f)
  ∧ (∀ steps,
       ∃ rows,
         output_csv (foldl (sink_step SAVE_EVERY) (started s) steps)
         = Some (HeaderLine :: (DataLine <$> rows))
         ∧ header_count (HeaderLine :: (DataLine <$> rows)) = 1%nat).
Proof.
  split_and!.
  - destruct (run_spec urljoin server SAVE_EVERY fuel args df s)
      as (s' & finished & Hrun & [rows Hfile] & _).
    exists s', finished, rows. split_and!; try done.
    apply (headed_header_count s'); [by exists rows | done].
  - intros s0 f Hf. destruct (save_results_spec s0) as (_ & _ & _ & _ & Hfile).
    split; [by apply Hfile|].
    unfold header_count. rewrite filter_app, length_app.
    fold (header_count (DataLine <$> result_rows s0)).
    rewrite header_count_DataLine. lia.
  - intros steps.
    destruct (sink_steps_spec SAVE_EVERY steps (started s)) as [Hhead _].
    destruct Hhead as [rows Hfile]; [by exists []|].
    exists rows. split; [done|].
    eapply headed_header_count; [by exists rows | done].
Qed.

(** C9, as the script has it: when no conference is listed twice and the
    listing pages of no conference repeat a link, the rows that a run emits
    have pairwise distinct (conference, link) pairs. *)
Theorem distinct_links_give_distinct_rows urljoin server SAVE_EVERY fuel args df files :
  NoDup (conferences args df) →
  (∀ cid, cid ∈ conferences args df →
     NoDup (discovered_links urljoin server fuel cid 1)) →
  ∃ s' finished,
    run urljoin server SAVE_EVERY fuel args (Some df) (init files) = Ok (s', finished)
    ∧ NoDup (key <$> emitted s').
Proof.
  intros Hids Hlinks.
  destruct (run_spec urljoin server SAVE_EVERY fuel args df (init files))
    as (s' & finished & Hrun & _ & _ & new & Hnew & Hsub).
  exists s', finished. split; [done|]. rewrite Hnew. simpl.
  eapply sublist_NoDup; [|exact Hsub]. by apply NoDup_run_links.
Qed.

Lemma distinct_links_give_distinct_rows_witness :
  ∃ s' finished,
    run join_relative plain_site 2 5 first_conference
      (Some one_conference) (init (None, None)) = Ok (s', finished)
    ∧ NoDup (key <$> emitted s').
Proof.
  apply (distinct_links_give_distinct_rows join_relative plain_site 2 5
           first_conference one_conference (None, None)).
  - change (NoDup ["7"]). apply NoDup_singleton.
  - intros cid Hcid. change (cid ∈ ["7"]) in Hcid.
    apply list_elem_of_singleton in Hcid as ->.
    change (NoDup ["https://civilica.com/doc/1"; "https://civilica.com/doc/2";
                   "https://civilica.com/doc/3"]).
    apply (bool_decide_unpack _). by vm_compute.
Defined.

Example plain_site_run :
  let r := main join_relative plain_site 2 5 first_conference
             (Some one_conference) (None, None) in
  r.2 = Exited 0
  ∧ requests r.1 =
      [listing_url "7" 1; "https://civilica.com/doc/1"; "https://civilica.com/doc/2";
       listing_url "7" 2; "https://civilica.com/doc/3"; listing_url "7" 3]
  ∧ column 1 <$> (render <$> default [] (output_csv r.1)) =
      ["Title"; "First"; "Second"; "Third"]
  ∧ failed_urls r.1 = []
  ∧ processed_count r.1 = 3%nat.
Proof. by vm_compute. Qed.

(** C9 fails as stated: page 2 of conference 7 lists the article of page 1
    again, and the run emits two rows for the same (conference, link)
    pair. *)
Lemma repeated_link_is_emitted_twice :
  let r := main join_relative repeating_site 500 5 first_conference
             (Some one_conference) (None, None) in
  let k := ("7", "https://civilica.com/doc/1") in
  r.2 = Exited 0
  ∧ key <$> data_rows (default [] (output_csv r.1)) = [k; k]
  ∧ length (filter (λ row, key row = k) (emitted r.1)) = 2%nat.
Proof. by vm_compute. Qed.

End Runs.

(** ** The output of the redirect resolver ([redirect_resolver.py]) *)

Module ResolverOutput.
Import Py Resolver Spec Samples Cover.

Lemma results_foldl_complete worker save_every sliced_df total urls st x :
  results (foldl (complete worker save_every sliced_df total) st urls) !! x
  = if decide (x ∈ urls) then Some (outcome worker x) else results st !! x.
Proof.
  revert st. induction urls as [|u urls IH]; intros st; [done|].
  cbn [foldl]. rewrite IH.
  destruct (decide (x ∈ urls)) as [Hin|Hnin].
  { rewrite decide_True by (by right). done. }
  destruct (decide (u = x)) as [->|Hne].
  - rewrite decide_True by left. unfold complete, outcome. cbn [results].
    destruct (worker x); by rewrite lookup_insert_eq.
  - rewrite decide_False by (intros [?|?]%elem_of_cons; congruence).
    unfold complete. cbn [results].
    destruct (worker u); by rewrite lookup_insert_ne.
Qed.

Lemma final_output_main worker df saved start_index end_index save_every :
  final_output (main worker df saved start_index end_index save_every)
  = final_url_column
      (results (resolve_all worker save_every (sliced df start_index end_index)
                  (to_submit (load_done saved) (sliced df start_index end_index))))
      (sliced df start_index end_index).
Proof. unfold final_output, main. cbn [written]. by rewrite last_snoc. Qed.

Lemma final_output_rows worker df saved start_index end_index save_every :
  final_output (main worker df saved start_index end_index save_every)
  = (λ r, {| source := r;
             final_url :=
               url ← website r;
               if decide (url ∈ load_done saved) then None else outcome worker url |})
      <$> sliced df start_index end_index.
Proof.
  rewrite final_output_main. unfold final_url_column.
  apply list_fmap_ext. intros i r Hr%list_elem_of_lookup_2. f_equal.
  destruct (website r) as [url|] eqn:Hurl; [|done]. cbn [mbind option_bind].
  unfold resolve_all. rewrite results_foldl_complete. cbn [results].
  rewrite lookup_empty. unfold to_submit.
  destruct (decide (url ∈ load_done saved)) as [Hdone|Hnew].
  - rewrite decide_False; [done|]. rewrite list_elem_of_filter. tauto.
  - rewrite decide_True; [done|]. rewrite list_elem_of_filter. split; [done|].
    apply list_elem_of_omap. by exists r.
Qed.

(** X1.  The output that [main] leaves holds the rows of the slice, in their
    order.  The [Final URL] of a row is what the worker gave for its URL
    (nothing when the worker raised), unless the URL is missing or is a key
    of the saved output: then it is empty. *)
Theorem final_output_by_row worker df saved start_index end_index save_every :
  final_output (main worker df saved start_index end_index save_every)
  = (λ r, {| source := r;
             final_url :=
               url ← website r;
               if decide (url ∈ load_done saved) then None else outcome worker url |})
      <$> sliced df start_index end_index.
Proof. apply final_output_rows. Qed.

Lemma sources_final_url_column results sliced_df :
  source <$> final_url_column results sliced_df = sliced_df.
Proof.
  unfold final_url_column. rewrite <- list_fmap_compose.
  rewrite <- (list_fmap_id sliced_df) at 2. by apply list_fmap_ext.
Qed.

(** X2.  Every write of the output, at a checkpoint or at the end, is a full
    snapshot: it holds the rows of the slice, all of them, in their order. *)
Theorem every_write_is_a_snapshot worker df saved start_index end_index save_every :
  Forall (λ snapshot, source <$> snapshot = sliced df start_index end_index)
    (written (main worker df saved start_index end_index save_every)).
Proof.
  unfold main. cbn [written]. apply Forall_app. split.
  - unfold resolve_all.
    generalize (to_submit (load_done saved) (sliced df start_index end_index)) at 2.
    generalize (length (to_submit (load_done saved) (sliced df start_index end_index))).
    intros total urls.
    assert (Hstart : Forall (λ snapshot, source <$> snapshot
                                = sliced df start_index end_index)
                       (writes {| results := ∅; completed_count := 0; writes := [] |}))
      by constructor.
    revert Hstart. generalize {| results := ∅; completed_count := 0; writes := [] |}.
    induction urls as [|u urls IH]; intros st Hst; [done|].
    cbn [foldl]. apply IH. unfold complete. cbn [writes].
    destruct (decide _); [|done].
    apply Forall_app. split; [done|].
    apply Forall_singleton, sources_final_url_column.
  - apply Forall_singleton, sources_final_url_column.
Qed.

(** X3.  Run again on the output of a run (read back as it was written, with
    the same input and range), [main] submits nothing and writes an empty
    [Final URL] in every row: what the first run resolved is gone. *)
Theorem rerun_on_own_output_resolves_nothing
  worker worker' df saved start_index end_index save_every save_every' :
  let first := main worker df saved start_index end_index save_every in
  let second :=
    main worker' df (Some (final_output first)) start_index end_index save_every' in
  submitted second = []
  ∧ final_output second
    = (λ r, {| source := r; final_url := None |}) <$> sliced df start_index end_index.
Proof.
  cbn zeta.
  set (first := main worker df saved start_index end_index save_every).
  assert (Hdone : ∀ url, url ∈ omap website (sliced df start_index end_index) →
                         url ∈ load_done (Some (final_output first))).
  { intros url Hurl. unfold load_done. apply elem_of_list_to_set.
    apply list_elem_of_omap in Hurl as (r & Hr & Hurl).
    apply list_elem_of_omap.
    pose proof (sources_final_url_column
      (results (resolve_all worker save_every (sliced df start_index end_index)
                  (to_submit (load_done saved) (sliced df start_index end_index))))
      (sliced df start_index end_index)) as Hsources.
    rewrite <- final_output_main in Hsources. fold first in Hsources.
    rewrite <- Hsources in Hr.
    apply list_elem_of_fmap in Hr as (row & -> & Hrow). by exists row. }
  split.
  - unfold main, to_submit. cbn [submitted].
    destruct (filter _ _) as [|url urls] eqn:Hfilter; [done|].
    assert (Hurl : url ∈ url :: urls) by left.
    rewrite <- Hfilter in Hurl. apply list_elem_of_filter in Hurl as [Hnew Hurl].
    by destruct (Hnew (Hdone url Hurl)).
  - rewrite final_output_rows. apply list_fmap_ext.
    intros i r Hr%list_elem_of_lookup_2. f_equal.
    destruct (website r) as [url|] eqn:Hurl; [|done]. cbn [mbind option_bind].
    rewrite decide_True; [done|]. apply Hdone, list_elem_of_omap. by exists r.
Qed.

Lemma div_succ (c k : nat) :
  (0 < k)%nat →
  (S c / k = c / k + if decide (S c mod k = 0) then 1 else 0)%nat.
Proof.
  intros Hk.
  pose proof (Nat.div_mod_eq c k) as Hc.
  pose proof (Nat.mod_upper_bound c k) as Hr.
  destruct (decide (c mod k + 1 = k)%nat) as [Hlast|Hmore].
  - assert (Hdiv : (S c / k = c / k + 1)%nat).
    { symmetry. apply (Nat.div_unique _ _ _ 0%nat); lia. }
    assert (Hmod : (S c mod k = 0)%nat).
    { symmetry. apply (Nat.mod_unique _ _ (c / k + 1)%nat); lia. }
    rewrite Hdiv, decide_True by done. done.
  - assert (Hdiv : (S c / k = c / k)%nat).
    { symmetry. apply (Nat.div_unique _ _ _ (c mod k + 1)%nat); lia. }
    assert (Hmod : (S c mod k = c mod k + 1)%nat).
    { symmetry. apply (Nat.mod_unique _ _ (c / k)%nat); lia. }
    rewrite Hdiv, decide_False by lia. lia.
Qed.

Lemma writes_foldl_complete worker save_every sliced_df total urls st :
  (completed_count st + length urls = total)%nat →
  (length (writes (foldl (complete worker save_every sliced_df total) st urls))
   + completed_count st / Pos.to_nat save_every
   = length (writes st)
     + match urls with
       | [] => completed_count st / Pos.to_nat save_every
       | _ => (total + Pos.to_nat save_every - 1) / Pos.to_nat save_every
       end)%nat.
Proof.
  pose proof (Pos2Nat.is_pos save_every) as Hk.
  revert st. induction urls as [|u urls IH]; intros st Htotal; [done|].
  cbn [foldl length] in *.
  set (st1 := complete worker save_every sliced_df total st u).
  assert (Hcount : completed_count st1 = S (completed_count st)) by done.
  assert (Hwrites : length (writes st1)
    = (length (writes st)
       + if decide (S (completed_count st) mod Pos.to_nat save_every = 0
                    ∨ S (completed_count st) = total)%nat then 1 else 0)%nat).
  { unfold st1, complete. cbn [writes]. destruct (decide _); [|lia].
    rewrite length_app. cbn. lia. }
  specialize (IH st1). rewrite Hcount, Hwrites in IH.
  pose proof (div_succ (completed_count st) (Pos.to_nat save_every) Hk) as Hdiv.
  destruct urls as [|u' urls].
  - cbn [foldl length] in *.
    assert (Hlast : S (completed_count st) = total) by lia.
    rewrite decide_True in Hwrites by (by right). rewrite Hwrites.
    assert (Hceil : ((total + Pos.to_nat save_every - 1) / Pos.to_nat save_every
                     = completed_count st / Pos.to_nat save_every + 1)%nat).
    { replace (total + Pos.to_nat save_every - 1)%nat
        with (completed_count st + 1 * Pos.to_nat save_every)%nat by lia.
      rewrite Nat.div_add by lia. done. }
    lia.
  - cbn [length] in *. specialize (IH ltac:(lia)).
    destruct (decide (S (completed_count st) mod Pos.to_nat save_every = 0)%nat)
      as [Hzero|Hnonzero].
    + rewrite decide_True in IH by (by left). lia.
    + rewrite decide_False in IH by lia. lia.
Qed.

(** X4.  The output is written once after every [save_every] completions, once
    when the last future completes, and once more at the end: with [n] URLs
    submitted, [n / save_every] rounded up, plus one, times. *)
Theorem number_of_writes worker df saved start_index end_index save_every :
  let r := main worker df saved start_index end_index save_every in
  length (written r)
  = (1 + (length (submitted r) + Pos.to_nat save_every - 1) / Pos.to_nat save_every)%nat.
Proof.
  pose proof (Pos2Nat.is_pos save_every) as Hk.
  unfold main. cbn [written submitted]. rewrite length_app. cbn [length].
  set (urls := to_submit (load_done saved) (sliced df start_index end_index)).
  pose proof (writes_foldl_complete worker save_every
    (sliced df start_index end_index) (length urls) urls
    {| results := ∅; completed_count := 0; writes := [] |} eq_refl) as Hwrites.
  fold (resolve_all worker save_every (sliced df start_index end_index) urls) in Hwrites.
  cbn [completed_count writes length] in Hwrites.
  rewrite Nat.Div0.div_0_l in Hwrites.
  destruct urls as [|u urls].
  - cbn [length] in *. rewrite Nat.div_small by lia. lia.
  - lia.
Qed.

End ResolverOutput.

(** ** The walk of a conference, page by page ([cwr.py]) *)

Module WalkSteps.
Import Py Cwr Spec Samples Cover.

Lemma process_article_accounts server cid title link s :
  let r := process_article server cid title link s in
  requests r.2 = requests s ++ [link]
  ∧ processed_count r.2 = (processed_count s + length (option_list r.1))%nat
  ∧ (length (failed_urls r.2) + length (option_list r.1)
     = length (failed_urls s) + 1)%nat
  ∧ (length (errors r.2) + length (option_list r.1) = length (errors s) + 1)%nat
  ∧ (∀ f, f ∈ failed_urls r.2 → f ∈ failed_urls s ∨ url f = link).
Proof.
  assert (Hfailure : ∀ e,
    let s' := article_failure cid link e (log_request link s) in
    requests s' = requests s ++ [link]
    ∧ processed_count s' = (processed_count s + 0)%nat
    ∧ (length (failed_urls s') + 0 = length (failed_urls s) + 1)%nat
    ∧ (length (errors s') + 0 = length (errors s) + 1)%nat
    ∧ (∀ f, f ∈ failed_urls s' → f ∈ failed_urls s ∨ url f = link)).
  { intros e. cbn. rewrite !length_app. cbn. split_and!; try done; try lia.
    intros f [Hf|Hf%list_elem_of_singleton]%elem_of_app; [by left|].
    right. by rewrite Hf. }
  unfold process_article.
  destruct (server link) as [e|status html]; [apply Hfailure|].
  destruct (decide (status ≠ 200)); [apply Hfailure|].
  destruct (parse_article_page html); [|apply Hfailure].
  cbn. split_and!; try done; try lia. by left.
Qed.

Lemma gather_articles_books server articles s :
  let r := gather_articles server articles s in
  length r.1 = length articles
  ∧ requests r.2 = requests s ++ articles.*2
  ∧ processed_count r.2 = (processed_count s + length (omap id r.1))%nat
  ∧ (length (failed_urls r.2) + length (omap id r.1)
     = length (failed_urls s) + length articles)%nat
  ∧ (length (errors r.2) + length (omap id r.1)
     = length (errors s) + length articles)%nat
  ∧ (∀ f, f ∈ failed_urls r.2 → f ∈ failed_urls s ∨ url f ∈ articles.*2).
Proof.
  revert s. induction articles as [|[[cid title] link] articles IH]; intros s.
  { cbn. rewrite !app_nil_r. split_and!; try done; try lia. by left. }
  cbn [gather_articles].
  pose proof (process_article_accounts server cid title link s)
    as (Hreq & Hcount & Hfail & Herr & Hurl).
  destruct (process_article server cid title link s) as [row s1]. cbn [fst snd] in *.
  specialize (IH s1).
  destruct (gather_articles server articles s1) as [rows s2]. cbn [fst snd] in *.
  destruct IH as (Hlen & Hreq2 & Hcount2 & Hfail2 & Herr2 & Hurl2).
  rewrite fmap_cons. cbn [snd length]. split_and!.
  - by rewrite Hlen.
  - by rewrite Hreq2, Hreq, <- app_assoc.
  - rewrite Hcount2, Hcount. destruct row; cbn; lia.
  - destruct row; cbn in *; lia.
  - destruct row; cbn in *; lia.
  - intros f [Hf|Hf]%Hurl2; [|right; by right].
    destruct (Hurl f Hf) as [?| ->]; [by left | right; by left].
Qed.

(** X5.  The articles of a page, one by one: each is requested once, in the
    order of the page; each gives a row or a failure, never both; the
    counter of processed articles grows by the number of rows. *)
Theorem gather_articles_accounts server articles s :
  let r := gather_articles server articles s in
  length r.1 = length articles
  ∧ requests r.2 = requests s ++ articles.*2
  ∧ processed_count r.2 = (processed_count s + length (omap id r.1))%nat
  ∧ (length (failed_urls r.2) + length (omap id r.1)
     = length (failed_urls s) + length articles)%nat
  ∧ (length (errors r.2) + length (omap id r.1)
     = length (errors s) + length articles)%nat
  ∧ (∀ f, f ∈ failed_urls r.2 → f ∈ failed_urls s ∨ url f ∈ articles.*2).
Proof. apply gather_articles_books. Qed.

(** Saving and collecting leave the counters and logs of the scraper as
    they are. *)
Lemma save_results_keeps s :
  requests (save_results s) = requests s
  ∧ processed_count (save_results s) = processed_count s
  ∧ errors (save_results s) = errors s
  ∧ failed_urls (save_results s) = failed_urls s.
Proof. unfold save_results. by destruct (result_rows s). Qed.

Lemma collect_results_keeps SAVE_EVERY results s :
  requests (collect_results SAVE_EVERY results s) = requests s
  ∧ processed_count (collect_results SAVE_EVERY results s) = processed_count s
  ∧ errors (collect_results SAVE_EVERY results s) = errors s
  ∧ failed_urls (collect_results SAVE_EVERY results s) = failed_urls s.
Proof.
  unfold collect_results. destruct (decide _); [|done].
  apply (save_results_keeps (set_rows _ _ s)).
Qed.

Lemma walk_goes_on urljoin server SAVE_EVERY fuel cid page s articles :
  page_articles urljoin server cid page = Some articles →
  process_conference_from urljoin server SAVE_EVERY (S fuel) cid page s
  = process_conference_from urljoin server SAVE_EVERY fuel cid (S page)
      (after_page server SAVE_EVERY cid page articles s).
Proof.
  unfold page_articles, after_page. cbn [process_conference_from].
  destruct (server (listing_url cid page)) as [e|status html]; [done|].
  destruct (decide (status ≠ 200)); [done|].
  destruct (parse_article_list urljoin html cid) as [|a l]; [done|].
  intros [= <-]. cbn beta iota.
  by destruct (gather_articles server _ _).
Qed.

Lemma walk_ends urljoin server SAVE_EVERY fuel cid page s :
  page_articles urljoin server cid page = None →
  let r := process_conference_from urljoin server SAVE_EVERY (S fuel) cid page s in
  r.2 = true ∧ requests r.1 = requests s ++ [listing_url cid page].
Proof.
  unfold page_articles. cbn [process_conference_from].
  destruct (server (listing_url cid page)) as [e|status html]; [done|].
  destruct (decide (status ≠ 200)); [done|].
  by destruct (parse_article_list urljoin html cid) as [|a l].
Qed.

Lemma after_page_requests server SAVE_EVERY cid page articles s :
  requests (after_page server SAVE_EVERY cid page articles s)
  = requests s ++ listing_url cid page :: articles.*2.
Proof.
  unfold after_page.
  destruct (collect_results_keeps SAVE_EVERY
    (gather_articles server ((λ a, (cid, a.1.2, a.2)) <$> articles)
       (log_request (listing_url cid page) s)).1
    (gather_articles server ((λ a, (cid, a.1.2, a.2)) <$> articles)
       (log_request (listing_url cid page) s)).2) as (-> & _).
  destruct (gather_articles_books server ((λ a, (cid, a.1.2, a.2)) <$> articles)
    (log_request (listing_url cid page) s)) as (_ & -> & _).
  cbn [requests log_request]. rewrite <- app_assoc. cbn [app]. do 2 f_equal.
  rewrite <- list_fmap_compose. by apply list_fmap_ext.
Qed.

(** X6.  A walk ends at the first page that raises, answers with another status
    than 200, or lists no article.  When the pages before it are [k], a walk
    of more than [k] pages ends there: it requested these [k] pages in
    order, each followed by its articles, and then the page that ends it;
    a walk of at most [k] pages is still going. *)
Theorem walk_ends_at_first_stopping_page urljoin server SAVE_EVERY cid k :
  ∀ page s fuel,
  (∀ i, (i < k)%nat → is_Some (page_articles urljoin server cid (page + i))) →
  page_articles urljoin server cid (page + k) = None →
  let r := process_conference_from urljoin server SAVE_EVERY fuel cid page s in
  ((k < fuel)%nat →
     r.2 = true
     ∧ requests r.1 =
         requests s ++ walk_requests urljoin server cid page k
           ++ [listing_url cid (page + k)])
  ∧ ((fuel ≤ k)%nat → r.2 = false).
Proof.
  induction k as [|k IH]; intros page s fuel Hon Hoff.
  - rewrite Nat.add_0_r in Hoff. destruct fuel as [|fuel].
    + split; [lia | done].
    + split; [|lia]. intros _. rewrite Nat.add_0_r.
      apply (walk_ends _ _ _ _ _ _ _ Hoff).
  - destruct fuel as [|fuel]; [split; [lia | done]|].
    destruct (Hon 0%nat) as [articles Harticles]; [lia|].
    rewrite Nat.add_0_r in Harticles.
    rewrite (walk_goes_on _ _ _ _ _ _ _ _ Harticles).
    specialize (IH (S page) (after_page server SAVE_EVERY cid page articles s) fuel).
    destruct IH as [Hends Hgoes].
    + intros i Hi. replace (S page + i)%nat with (page + S i)%nat by lia.
      apply Hon. lia.
    + by replace (S page + k)%nat with (page + S k)%nat by lia.
    + split; [|intros; apply Hgoes; lia].
      intros Hfuel. destruct Hends as [Hflag Hreq]; [lia|]. split; [done|].
      rewrite Hreq, after_page_requests. cbn [walk_requests].
      rewrite Harticles. cbn [default].
      replace (S page + k)%nat with (page + S k)%nat by lia.
      rewrite <- !app_assoc. cbn [id app]. by rewrite <- !app_assoc.
Qed.

Lemma walk_ends_at_first_stopping_page_witness :
  let r := process_conference_from join_relative plain_site 500 5 "7" 1 fresh in
  ((2 < 5)%nat →
     r.2 = true
     ∧ requests r.1 =
         requests fresh ++ walk_requests join_relative plain_site "7" 1 2
           ++ [listing_url "7" (1 + 2)])
  ∧ ((5 ≤ 2)%nat → r.2 = false).
Proof.
  apply (walk_ends_at_first_stopping_page join_relative plain_site 500 "7" 2 1 fresh 5).
  - intros i Hi. destruct i as [|[|i]]; [| | lia]; eexists; vm_compute; reflexivity.
  - vm_compute. reflexivity.
Defined.

Example plain_site_walk :
  let r := process_conference join_relative plain_site 500 5 "7" fresh in
  r.2 = true
  ∧ requests r.1 =
      [listing_url "7" 1; "https://civilica.com/doc/1"; "https://civilica.com/doc/2";
       listing_url "7" 2; "https://civilica.com/doc/3"; listing_url "7" 3]
  ∧ (process_conference join_relative plain_site 500 2 "7" fresh).2 = false.
Proof. by vm_compute. Qed.

(** X7.  A conference whose every page lists an article is walked without end:
    however many pages the walk may take, it is still going after them, and
    it requested each of them. *)
Theorem walk_has_no_page_bound urljoin server SAVE_EVERY cid fuel :
  ∀ page s,
  (∀ p, (page ≤ p)%nat → is_Some (page_articles urljoin server cid p)) →
  let r := process_conference_from urljoin server SAVE_EVERY fuel cid page s in
  r.2 = false
  ∧ requests r.1 = requests s ++ walk_requests urljoin server cid page fuel.
Proof.
  induction fuel as [|fuel IH]; intros page s Hon.
  - cbn. by rewrite app_nil_r.
  - destruct (Hon page) as [articles Harticles]; [lia|].
    rewrite (walk_goes_on _ _ _ _ _ _ _ _ Harticles).
    destruct (IH (S page) (after_page server SAVE_EVERY cid page articles s))
      as [Hflag Hreq]; [intros p Hp; apply Hon; lia|].
    split; [done|]. rewrite Hreq, after_page_requests. cbn [walk_requests].
    rewrite Harticles. cbn [default].
    rewrite <- !app_assoc. by cbn [id app].
Qed.

Lemma walk_has_no_page_bound_witness :
  let r := process_conference_from join_relative endless_site 500 3 "7" 1 fresh in
  r.2 = false
  ∧ requests r.1 = requests fresh ++ walk_requests join_relative endless_site "7" 1 3.
Proof.
  apply (walk_has_no_page_bound join_relative endless_site 500 "7" 3 1 fresh).
  intros p Hp. eexists. reflexivity.
Defined.

End WalkSteps.

(** ** The books of a run ([cwr.py]) *)

Module RunBooks.
Import Py Cwr Spec Samples Cover Sink Emission WalkSteps.

Lemma after_page_emitted server SAVE_EVERY cid page articles s :
  let r := gather_articles server ((λ a, (cid, a.1.2, a.2)) <$> articles)
             (log_request (listing_url cid page) s) in
  emitted (after_page server SAVE_EVERY cid page articles s)
  = emitted s ++ omap id r.1.
Proof.
  unfold after_page. cbn zeta.
  destruct (gather_articles_spec server ((λ a, (cid, a.1.2, a.2)) <$> articles)
    (log_request (listing_url cid page) s)) as [(Hrows & Hfile & _) _].
  destruct (collect_results_spec SAVE_EVERY
    (gather_articles server ((λ a, (cid, a.1.2, a.2)) <$> articles)
       (log_request (listing_url cid page) s)).1
    (gather_articles server ((λ a, (cid, a.1.2, a.2)) <$> articles)
       (log_request (listing_url cid page) s)).2) as (-> & _).
  unfold emitted. by rewrite Hrows, Hfile.
Qed.

Lemma after_page_accounted server SAVE_EVERY cid page articles s :
  accounted s → accounted (after_page server SAVE_EVERY cid page articles s).
Proof.
  intros (Hcount & Herr & Hurl). unfold accounted.
  rewrite after_page_emitted, after_page_requests. unfold after_page.
  set (tasks := (λ a, (cid, a.1.2, a.2)) <$> articles).
  set (s0 := log_request (listing_url cid page) s).
  destruct (collect_results_keeps SAVE_EVERY (gather_articles server tasks s0).1
    (gather_articles server tasks s0).2) as (_ & -> & -> & ->).
  destruct (gather_articles_books server tasks s0)
    as (_ & _ & Hcount2 & Hfail2 & Herr2 & Hurl2).
  assert (Hlinks : tasks.*2 = articles.*2).
  { unfold tasks. rewrite <- list_fmap_compose. by apply list_fmap_ext. }
  cbn [processed_count failed_urls errors log_request s0] in *.
  split_and!.
  - rewrite Hcount2, length_app. lia.
  - lia.
  - intros f [Hf|Hf]%Hurl2.
    + apply elem_of_app. left. by apply Hurl.
    + apply elem_of_app. right. right. by rewrite <- Hlinks.
Qed.

Lemma log_request_accounted u s : accounted s → accounted (log_request u s).
Proof.
  intros (Hcount & Herr & Hurl). split_and!; [exact Hcount | exact Herr |].
  intros f Hf. cbn [requests log_request]. apply elem_of_app. left. by apply Hurl.
Qed.

Lemma listing_failure_accounted msg cid u e s :
  accounted s →
  accounted (record_failure msg {| conference_id := cid; url := u; error := e |}
               (log_request u s)).
Proof.
  intros (Hcount & Herr & Hurl). split_and!; [exact Hcount | |].
  - cbn [errors failed_urls record_failure log_request]. rewrite !length_app.
    cbn [length]. lia.
  - cbn [requests failed_urls record_failure log_request].
    intros f [Hf|Hf%list_elem_of_singleton]%elem_of_app; apply elem_of_app.
    + left. by apply Hurl.
    + right. rewrite Hf. cbn [url]. by left.
Qed.

Lemma process_conference_from_accounted urljoin server SAVE_EVERY fuel cid page s :
  accounted s →
  accounted (process_conference_from urljoin server SAVE_EVERY fuel cid page s).1.
Proof.
  revert page s. induction fuel as [|fuel IH]; intros page s Hs; [done|].
  destruct (page_articles urljoin server cid page) as [articles|] eqn:Hpage.
  { rewrite (walk_goes_on _ _ _ _ _ _ _ _ Hpage). by apply IH, after_page_accounted. }
  unfold page_articles in Hpage. cbn [process_conference_from].
  destruct (server (listing_url cid page)) as [e|status html].
  - cbn [fst]. by apply listing_failure_accounted.
  - pose proof (log_request_accounted (listing_url cid page) s Hs) as Hlogged.
    destruct (decide (status ≠ 200)); [done|].
    by destruct (parse_article_list urljoin html cid).
Qed.

Lemma process_all_accounted urljoin server SAVE_EVERY fuel ids s :
  accounted s → accounted (process_all urljoin server SAVE_EVERY fuel ids s).1.
Proof.
  revert s. induction ids as [|cid ids IH]; intros s Hs; [done|].
  cbn [process_all]. unfold process_conference.
  pose proof (process_conference_from_accounted urljoin server SAVE_EVERY fuel cid 1 s Hs).
  destruct (process_conference_from urljoin server SAVE_EVERY fuel cid 1 s)
    as [s1 finished]. destruct finished; [by apply IH | done].
Qed.

(** X8.  Whatever the site answers, a run keeps its books: the counter of
    processed articles is the number of rows given to the sink (after a run
    that ends: the number of rows in the file), every failure recorded was
    logged as an error, and every failure is about a URL that the run
    requested. *)
Theorem run_keeps_its_books urljoin server SAVE_EVERY fuel args df files :
  ∃ s' finished,
    run urljoin server SAVE_EVERY fuel args (Some df) (init files) = Ok (s', finished)
    ∧ processed_count s' = length (emitted s')
    ∧ (finished = true →
         processed_count s' = length (data_rows (default [] (output_csv s'))))
    ∧ length (errors s') = length (failed_urls s')
    ∧ Forall (λ f, url f ∈ requests s') (failed_urls s').
Proof.
  destruct (run_spec urljoin server SAVE_EVERY fuel args df (init files))
    as (s' & finished & Hrun & _ & Hrows & _).
  exists s', finished. split; [done|].
  assert (Hbooks : accounted s').
  { unfold run in Hrun. fold (conferences args df) in Hrun.
    set (s0 := set_rows (result_rows (init files)) (Some [HeaderLine]) (init files))
      in Hrun.
    assert (Hs0 : accounted s0) by (split_and!; [done | done | by intros f ?%elem_of_nil]).
    pose proof (process_all_accounted urljoin server SAVE_EVERY fuel
                  (conferences args df) s0 Hs0) as Hall.
    destruct (process_all urljoin server SAVE_EVERY fuel (conferences args df) s0)
      as [s1 fin]. cbn [fst] in Hall.
    destruct fin; [|by simplify_eq].
    destruct (save_results_keeps s1) as (Hreq & Hcount & Herr & Hfail).
    destruct (save_results_spec s1) as (_ & Hem & _).
    destruct Hall as (Hc & He & Hu).
    assert (accounted (save_results s1)).
    { split_and!; [by rewrite Hcount, Hem | by rewrite Herr, Hfail |].
      intros f. rewrite Hfail, Hreq. apply Hu. }
    destruct (failed_urls (save_results s1)); by simplify_eq. }
  destruct Hbooks as (Hcount & Herr & Hurl). split_and!; try done.
  - intros Hfin. rewrite Hcount. unfold emitted.
    by rewrite (Hrows Hfin), app_nil_r.
  - by apply Forall_forall.
Qed.

(** X9.  The failure log after [run]: a run that ends with failures writes
    exactly its failures over the log; a run that ends without failure, or
    that is still going, leaves the log as it found it, so that the log of
    an earlier run stays in place. *)
Theorem failure_log_after_run urljoin server SAVE_EVERY fuel args df s :
  ∃ s' finished,
    run urljoin server SAVE_EVERY fuel args (Some df) s = Ok (s', finished)
    ∧ failed_urls_log s' =
        if finished then
          match failed_urls s' with
          | [] => failed_urls_log s
          | failures => Some failures
          end
        else failed_urls_log s.
Proof.
  unfold run. fold (conferences args df).
  set (s0 := set_rows (result_rows s) (Some [HeaderLine]) s).
  pose proof (process_all_spec urljoin server SAVE_EVERY fuel (conferences args df) s0)
    as (_ & Hlog & _).
  destruct (process_all urljoin server SAVE_EVERY fuel (conferences args df) s0)
    as [s1 finished]. cbn [fst] in Hlog.
  destruct finished; [|by eexists _, false].
  destruct (save_results_spec s1) as (_ & _ & _ & Hlog2 & _).
  destruct (failed_urls (save_results s1)) as [|f failures] eqn:Hfailed.
  - eexists _, true. split; [done|]. rewrite Hfailed. by rewrite Hlog2, Hlog.
  - eexists _, true. split; [done|]. cbn [failed_urls set_failed_urls_log].
    by rewrite Hfailed.
Qed.

Lemma discovered_links_step urljoin server fuel cid page articles :
  page_articles urljoin server cid page = Some articles →
  discovered_links urljoin server (S fuel) cid page
  = articles.*2 ++ discovered_links urljoin server fuel cid (S page).
Proof.
  unfold page_articles. cbn [discovered_links].
  destruct (server (listing_url cid page)) as [e|status html]; [done|].
  destruct (decide (status ≠ 200)); [done|].
  destruct (parse_article_list urljoin html cid); [done|]. by intros [= <-].
Qed.

Lemma process_conference_from_requests urljoin server SAVE_EVERY fuel cid page s :
  ∃ new,
    requests (process_conference_from urljoin server SAVE_EVERY fuel cid page s).1
    = requests s ++ new
    ∧ Forall (λ u, (∃ p, u = listing_url cid p)
                   ∨ u ∈ discovered_links urljoin server fuel cid page) new.
Proof.
  revert page s. induction fuel as [|fuel IH]; intros page s.
  { exists []. by rewrite app_nil_r. }
  destruct (page_articles urljoin server cid page) as [articles|] eqn:Hpage.
  - rewrite (walk_goes_on _ _ _ _ _ _ _ _ Hpage).
    destruct (IH (S page) (after_page server SAVE_EVERY cid page articles s))
      as (new & -> & Hnew).
    rewrite after_page_requests, (discovered_links_step _ _ _ _ _ _ Hpage).
    exists ((listing_url cid page :: articles.*2) ++ new).
    split; [by rewrite <- app_assoc|].
    apply Forall_app. split; [apply Forall_cons; split|].
    + left. by exists page.
    + apply Forall_forall. intros u Hu. right. apply elem_of_app. by left.
    + eapply Forall_impl; [exact Hnew|]. intros u [?|Hu]; [by left|].
      right. apply elem_of_app. by right.
  - destruct (walk_ends urljoin server SAVE_EVERY fuel cid page s Hpage) as [_ ->].
    exists [listing_url cid page]. split; [done|].
    apply Forall_singleton. left. by exists page.
Qed.

Lemma process_all_requests urljoin server SAVE_EVERY fuel ids s :
  ∃ new,
    requests (process_all urljoin server SAVE_EVERY fuel ids s).1 = requests s ++ new
    ∧ Forall (walk_url urljoin server fuel ids) new.
Proof.
  revert s. induction ids as [|cid ids IH]; intros s.
  { exists []. by rewrite app_nil_r. }
  cbn [process_all]. unfold process_conference.
  destruct (process_conference_from_requests urljoin server SAVE_EVERY fuel cid 1 s)
    as (new & Hnew & Hwalk).
  assert (Hhere : Forall (walk_url urljoin server fuel (cid :: ids)) new).
  { eapply Forall_impl; [exact Hwalk|]. intros u Hu. exists cid. split; [by left|done]. }
  destruct (process_conference_from urljoin server SAVE_EVERY fuel cid 1 s)
    as [s1 finished]. cbn [fst] in Hnew.
  destruct finished; [|by exists new].
  destruct (IH s1) as (new2 & -> & Hrest). rewrite Hnew.
  exists (new ++ new2). split; [by rewrite app_assoc|].
  apply Forall_app. split; [done|].
  eapply Forall_impl; [exact Hrest|].
  intros u (cid' & Hcid & Hu). exists cid'. split; [by right|done].
Qed.



(** X10.  A run only requests listing pages of the conferences it selected and
    links that these listing pages gave. *)
Theorem run_requests_stay_on_the_walk urljoin server SAVE_EVERY fuel args df files :
  ∃ s' finished,
    run urljoin server SAVE_EVERY fuel args (Some df) (init files) = Ok (s', finished)
    ∧ Forall (walk_url urljoin server fuel (conferences args df)) (requests s').
Proof.
  unfold run. fold (conferences args df).
  set (s0 := set_rows (result_rows (init files)) (Some [HeaderLine]) (init files)).
  destruct (process_all_requests urljoin server SAVE_EVERY fuel (conferences args df) s0)
    as (new & Hnew & Hwalk).
  destruct (process_all urljoin server SAVE_EVERY fuel (conferences args df) s0)
    as [s1 finished]. cbn [fst] in Hnew. cbn in Hnew. subst new.
  destruct finished; [|by eexists _, false].
  destruct (save_results_keeps s1) as (Hreq & _).
  destruct (failed_urls (save_results s1)); eexists _, true; (split; [done|]);
    cbn [requests set_failed_urls_log]; by rewrite Hreq.
Qed.

End RunBooks.

(** ** The cadence of the saves ([cwr.py]) *)

Module Cadence.
Import Py Cwr Spec Samples Cover Sink Emission WalkSteps.













End Cadence.

(** ** The fields of an article page ([cwr.py]) *)

Module PageFields.
Import Py Cwr Spec Samples Cover PyFacts.

Lemma join_cons_nonempty sep x l : x ≠ EmptyString → join sep (x :: l) ≠ EmptyString.
Proof.
  intros Hx. unfold join. destruct x as [|c x]; [done|].
  destruct l; cbn; [done|]. unfold String.app. cbn. discriminate.
Qed.

(** X11.  The keywords of a page are missing exactly when the container is
    missing or holds no text; when they are there, they are never the empty
    string. *)
Theorem keywords_missing_or_nonempty html :
  (extract_keywords_from_page html = None
   ↔ Forall (λ t, t = EmptyString) (default [] (keywords_container html)))
  ∧ extract_keywords_from_page html ≠ Some EmptyString.
Proof.
  unfold extract_keywords_from_page.
  destruct (keywords_container html) as [texts|]; cbn [default]; [|by split].
  destruct (filter (λ t, t ≠ EmptyString) texts) as [|k kws] eqn:Hfilter.
  - split; [|done]. split; [|done]. intros _. apply Forall_forall. intros t Ht.
    destruct (decide (t = EmptyString)) as [|Hne]; [done|].
    by destruct (filter_nil_not_elem_of _ _ t Hfilter Hne).
  - assert (Hk : k ∈ filter (λ t, t ≠ EmptyString) texts) by (rewrite Hfilter; by left).
    apply list_elem_of_filter in Hk as [Hne Hin]. split.
    + split; [done|]. intros Hall. rewrite Forall_forall in Hall.
      by destruct (Hne (Hall k Hin)).
    + intros [= Hjoin]. by apply (join_cons_nonempty ", " k kws Hne).
Qed.

Lemma dict_get_dict_set {V} (d : dict V) k v k' :
  dict_get (dict_set d k v) k' = if decide (k = k') then Some v else dict_get d k'.
Proof.
  induction d as [|[k0 v0] d IH]; cbn [dict_set dict_get].
  - done.
  - destruct (decide (k0 = k)) as [->|Hne]; cbn [dict_get].
    + by destruct (decide (k = k')).
    + rewrite IH. destruct (decide (k0 = k')) as [->|]; [|done].
      by rewrite decide_False by congruence.
Qed.

Lemma dict_get_foldl_add_author blocks (d : dict string) name :
  dict_get (foldl add_author d blocks) name
  = match last (places_of name blocks) with
    | Some place => Some place
    | None => dict_get d name
    end.
Proof.
  revert d. induction blocks as [|b blocks IH]; intros d; [done|].
  cbn [foldl]. rewrite IH. unfold places_of. cbn [omap list_omap].
  fold (places_of name blocks). unfold add_author.
  destruct (name_tag b) as [n|]; cbn [mbind option_bind]; [|done].
  rewrite dict_get_dict_set.
  destruct (decide (strip n = name)) as [Heq|Hne]; [|done].
  rewrite last_cons. by destruct (last (places_of name blocks)).
Qed.

(** X12.  The dictionary of the authors of a page has every name once, and gives
    each name the affiliation of the last block with that name. *)
Theorem authors_map_keeps_last_place blocks name :
  NoDup (keys (collect_authors blocks))
  ∧ dict_get (collect_authors blocks) name = last (places_of name blocks).
Proof.
  split.
  - change (collect_authors blocks) with (foldl add_author [] blocks).
    rewrite Items.keys_foldl_add_author. cbn [keys fmap list_fmap app].
    apply NoDup_drop_duplicates_from.
  - change (collect_authors blocks) with (foldl add_author [] blocks).
    rewrite dict_get_foldl_add_author. by destruct (last _).
Qed.

End PageFields.

(** ** The conferences that a run selects ([cwr.py]) *)

Module Selection.
Import Py Cwr Spec Samples Cover.

Lemma slice_in_range {A} (l : list A) (lo hi : Z) :
  0 ≤ lo → lo < hi →
  slice l lo hi = take (Z.to_nat (hi - lo)) (drop (Z.to_nat lo) l).
Proof.
  intros Hlo Hhi. unfold slice, slice_index.
  rewrite !decide_False by lia.
  destruct (decide (Z.of_nat (length l) ≤ lo)) as [Hout|Hin].
  - rewrite Z.min_r by lia. rewrite !drop_ge by lia. by rewrite !take_nil.
  - rewrite (Z.min_l lo) by lia.
    destruct (decide (Z.of_nat (length l) ≤ hi)) as [Hall|Hsome].
    + rewrite Z.min_r by lia. rewrite !take_ge; [done | |]; rewrite length_drop; lia.
    + by rewrite Z.min_l by lia.
Qed.



(** The run of the range 1 to 3 on five rows walks the conferences 7 and 9,
    in this order. *)
Example selected_run :
  let args := {| start := 1; end_ := 3 |} in
  let df := [ {| row_id := "5"; row_keywords := Some "a" |};
              {| row_id := "6"; row_keywords := None |};
              {| row_id := "7"; row_keywords := Some "b" |};
              {| row_id := "8"; row_keywords := Some EmptyString |};
              {| row_id := "9"; row_keywords := Some "c" |} ] in
  requests (main join_relative plain_site 500 5 args (Some df) (None, None)).1
  = [listing_url "7" 1; "https://civilica.com/doc/1"; "https://civilica.com/doc/2";
     listing_url "7" 2; "https://civilica.com/doc/3"; listing_url "7" 3;
     listing_url "9" 1].
Proof. by vm_compute. Qed.

Example selected_conferences :
  conferences {| start := 1; end_ := 3 |}
    [ {| row_id := "5"; row_keywords := Some "a" |};
      {| row_id := "6"; row_keywords := None |};
      {| row_id := "7"; row_keywords := Some "b" |};
      {| row_id := "8"; row_keywords := Some EmptyString |};
      {| row_id := "9"; row_keywords := Some "c" |} ]
  = ["7"; "9"].
Proof. reflexivity. Qed.

End Selection.

(** ** The attempts of [retry_get] ([scr.py]) *)

Module Attempts.
Import Py Spec Samples Cover.

Lemma retry_get_from_attempts driver url cid remaining :
  ∀ attempt st,
  let r := Scr.retry_get_from driver remaining attempt url cid st in
  ∃ n,
    (n ≤ remaining)%nat
    ∧ Scr.gets r.2 = Scr.gets st ++ replicate n url
    ∧ (∀ i, (i + (if r.1 then 1 else 0) < n)%nat →
         driver url (length (Scr.gets st) + i)%nat ≠ Scr.Loaded)
    ∧ if r.1 then
        (1 ≤ n)%nat
        ∧ driver url (length (Scr.gets st) + n - 1)%nat = Scr.Loaded
        ∧ Scr.failed_urls r.2 = Scr.failed_urls st
        ∧ (length (Scr.warnings r.2) + 1 = length (Scr.warnings st) + n)%nat
      else
        n = remaining
        ∧ Scr.failed_urls r.2 =
            Scr.failed_urls st ++ [{| Scr.conference_id := cid; Scr.url := url |}]
        ∧ length (Scr.warnings r.2) = (length (Scr.warnings st) + n)%nat.
Proof.
  induction remaining as [|k IH]; intros attempt st.
  { exists 0%nat. cbn. rewrite app_nil_r. split_and!; try done; try lia. }
  cbn [Scr.retry_get_from].
  destruct (driver url (length (Scr.gets st))) eqn:Hget.
  { exists 1%nat. cbn. split_and!; try done; try lia.
    by replace (length (Scr.gets st) + 1 - 1)%nat with (length (Scr.gets st)) by lia. }
  all: set (st' := {| Scr.failed_urls := Scr.failed_urls st;
                      Scr.gets := Scr.gets st ++ [url];
                      Scr.warnings := Scr.warnings st ++ [(attempt, url)] |}).
  all: specialize (IH (S attempt) st'); cbn zeta in IH.
  all: destruct (Scr.retry_get_from driver k (S attempt) url cid st') as [b st2].
  all: cbn [fst snd] in *; destruct IH as (n & Hn & Hgets & Hfailed & Hres).
  all: subst st'; cbn [Scr.gets Scr.failed_urls Scr.warnings] in *.
  all: rewrite length_app in *; cbn [length] in *.
  all: exists (S n); split_and!; [lia | by rewrite Hgets, <- app_assoc | |].
  all: try (intros [|i] Hi;
    [ rewrite Nat.add_0_r, Hget; discriminate
    | replace (length (Scr.gets st) + S i)%nat
        with (length (Scr.gets st) + 1 + i)%nat by lia; apply Hfailed; lia ]).
  all: destruct b;
    [ destruct Hres as (H1 & Hload & Hf & Hw); rewrite length_app in Hw;
      cbn [length] in Hw; split_and!; [lia | | done | lia];
      by replace (length (Scr.gets st) + S n - 1)%nat
        with (length (Scr.gets st) + 1 + n - 1)%nat by lia
    | destruct Hres as (-> & Hf & Hw); rewrite length_app in Hw;
      cbn [length] in Hw; split_and!; [done | done | lia] ].
Qed.

(** X14.  [retry_get] loads the URL until a load succeeds, at most [retries]
    times.  It returns [True] at the first load that succeeds, without
    recording a failure; it returns [False] only after [retries] loads that
    all failed (without any load when [retries] is not positive), and then
    records one failure for the URL.  Every failed load is warned about. *)
Theorem retry_get_stops_at_first_load driver retries url cid st :
  let r := Scr.retry_get driver retries url cid st in
  ∃ n,
    (n ≤ Z.to_nat retries)%nat
    ∧ Scr.gets r.2 = Scr.gets st ++ replicate n url
    ∧ (∀ i, (i + (if r.1 then 1 else 0) < n)%nat →
         driver url (length (Scr.gets st) + i)%nat ≠ Scr.Loaded)
    ∧ if r.1 then
        (1 ≤ n)%nat
        ∧ driver url (length (Scr.gets st) + n - 1)%nat = Scr.Loaded
        ∧ Scr.failed_urls r.2 = Scr.failed_urls st
        ∧ (length (Scr.warnings r.2) + 1 = length (Scr.warnings st) + n)%nat
      else
        n = Z.to_nat retries
        ∧ Scr.failed_urls r.2 =
            Scr.failed_urls st ++ [{| Scr.conference_id := cid; Scr.url := url |}]
        ∧ length (Scr.warnings r.2) = (length (Scr.warnings st) + n)%nat.
Proof. apply retry_get_from_attempts. Qed.

End Attempts.

(** ** The rows of the Selenium scraper ([scr.py]) *)

Module ScrRows.
Import Py Spec Samples Cover ScrRun.

Lemma data_rows_well_formed out :
  well_formed_output out →
  ∀ rows, well_formed_output
            (match rows with
             | [] => out
             | _ => Some (default [Cwr.HeaderLine] out ++ (Cwr.DataLine <$> rows))
             end).
Proof.
  intros Hout [|row rows]; [done|].
  destruct out as [f|]; cbn [default well_formed_output] in *.
  - destruct Hout as (row0 & rows0 & ->).
    exists row0, (rows0 ++ row :: rows).
    by rewrite !fmap_cons, fmap_app, !fmap_cons.
  - by exists row, rows.
Qed.

(** What [save_partial_results] does. *)
Lemma save_partial_results_spec w :
  let w' := save_partial_results w in
  result_rows w' = []
  ∧ browser w' = browser w
  ∧ failed w' = failed w
  ∧ (∀ local_rows, held local_rows w' = held [] w ++ local_rows)
  ∧ (well_formed_output (output w) → well_formed_output (output w')).
Proof.
  unfold save_partial_results, held.
  destruct (result_rows w) as [|row rows] eqn:Hrows.
  - rewrite Hrows. split_and!; try done. intros local_rows. by rewrite !app_nil_r.
  - cbn. split_and!; try done.
    + intros local_rows. rewrite !app_nil_r, Sink.data_rows_app.
      cbn. rewrite Sink.data_rows_DataLine. by destruct (output w).
    + intros Hout.
      apply (data_rows_well_formed (output w) Hout (row :: rows)).
Qed.

Lemma flush_local_spec local_rows w :
  let w' := flush_local local_rows w in
  result_rows w' = []
  ∧ browser w' = browser w
  ∧ failed w' = failed w
  ∧ held [] w' = held local_rows w
  ∧ (well_formed_output (output w) → well_formed_output (output w')).
Proof.
  unfold flush_local.
  set (w1 := set_result_rows (result_rows w ++ local_rows) (output w) w).
  destruct (save_partial_results_spec w1) as (Hrows & Hbrowser & Hfailed & Hheld & Hout).
  split_and!; try done.
  rewrite (Hheld []), app_nil_r. unfold held, w1. cbn. by rewrite app_nil_r.
Qed.

Section Walk.

Variable driver : Scr.Driver.
Variable dom : string → nat → Cwr.Html.
Variable urljoin : string → string → string.
Variable details : string → CitationDetails.
Variables retries save_every : Z.

Lemma retry_get_records_failure url cid st :
  let r := Scr.retry_get driver retries url cid st in
  Scr.failed_urls r.2 =
    Scr.failed_urls st ++
      (if r.1 then [] else [{| Scr.conference_id := cid; Scr.url := url |}]).
Proof. apply Fetching.retry_get_from_records_failure. Qed.

Lemma process_articles_spec cid arts :
  ∀ local_rows w,
  let r := process_articles driver dom details retries save_every cid arts local_rows w in
  (result_rows w = [] → result_rows r.2 = [])
  ∧ failed r.2 = failed w
  ∧ (well_formed_output (output w) → well_formed_output (output r.2))
  ∧ (Z.of_nat (length local_rows) < Z.max 1 save_every →
     Z.of_nat (length r.1) < Z.max 1 save_every)
  ∧ ∃ rows,
      held r.1 r.2 = held local_rows w ++ rows
      ∧ Forall (λ row, Cwr.Conference_ID row = cid) rows
      ∧ Cwr.Link <$> rows `sublist_of` arts.*2
      ∧ (length (Scr.failed_urls (browser r.2)) + length rows
         = length (Scr.failed_urls (browser w)) + length arts)%nat.
Proof.
  induction arts as [|[[cid' title] link] arts IH]; intros local_rows w.
  { cbn. split_and!; try done. exists []. by rewrite app_nil_r. }
  cbn [process_articles].
  pose proof (retry_get_records_failure link cid (browser w)) as Hfailed.
  destruct (Scr.retry_get driver retries link cid (browser w)) as [loaded st].
  cbn [fst snd] in Hfailed. rewrite fmap_cons. cbn [snd length].
  destruct loaded.
  - rewrite app_nil_r in Hfailed.
    set (row := article_row details cid title link (dom link (length (Scr.gets st)))).
    destruct (decide (save_every ≤ Z.of_nat (length (local_rows ++ [row]))))
      as [Hfull|Hroom].
    + destruct (flush_local_spec (local_rows ++ [row]) (set_browser st w))
        as (Hrows & Hbrowser & Hfile & Hheld & Hout).
      specialize (IH [] (flush_local (local_rows ++ [row]) (set_browser st w))).
      destruct IH as (Hrows2 & Hfile2 & Hout2 & Hbound2 & rows & Hheld2 & Hcid & Hlinks & Hcount).
      split_and!.
      * intros _. by apply Hrows2.
      * by rewrite Hfile2, Hfile.
      * intros Hwf. by apply Hout2, Hout.
      * intros _. apply Hbound2. cbn. lia.
      * exists (row :: rows). split_and!.
        -- rewrite Hheld2, Hheld. unfold held. cbn. by rewrite <- !app_assoc.
        -- by constructor.
        -- rewrite fmap_cons. by apply sublist_skip.
        -- rewrite Hbrowser in Hcount. cbn in *. rewrite Hfailed in Hcount. lia.
    + specialize (IH (local_rows ++ [row]) (set_browser st w)).
      destruct IH as (Hrows2 & Hfile2 & Hout2 & Hbound2 & rows & Hheld2 & Hcid & Hlinks & Hcount).
      split_and!; try done.
      * intros _. apply Hbound2. lia.
      * exists (row :: rows). split_and!.
        -- rewrite Hheld2. unfold held. cbn. by rewrite <- !app_assoc.
        -- by constructor.
        -- rewrite fmap_cons. by apply sublist_skip.
        -- cbn in *. rewrite Hfailed in Hcount. lia.
  - specialize (IH local_rows (set_browser st w)).
    destruct IH as (Hrows2 & Hfile2 & Hout2 & Hbound2 & rows & Hheld2 & Hcid & Hlinks & Hcount).
    split_and!; try done.
    exists rows. split_and!; try done.
    + by apply sublist_cons.
    + cbn in *. rewrite Hfailed, length_app in Hcount. cbn in Hcount. lia.
Qed.

(** X15.  The articles of a page, one after the other: every article gives a
    row or a failure, never both and never none.  The rows are those of the
    articles that loaded, in the order of the page, under the conference of
    the walk; they are added to the rows held so far, of which none is
    lost. *)
Theorem article_loads_give_rows_or_failures cid arts local_rows w :
  let r := process_articles driver dom details retries save_every cid arts local_rows w in
  ∃ rows,
    held r.1 r.2 = held local_rows w ++ rows
    ∧ Forall (λ row, Cwr.Conference_ID row = cid) rows
    ∧ Cwr.Link <$> rows `sublist_of` arts.*2
    ∧ (length (Scr.failed_urls (browser r.2)) + length rows
       = length (Scr.failed_urls (browser w)) + length arts)%nat.
Proof. by destruct (process_articles_spec cid arts local_rows w) as (_ & _ & _ & _ & ?). Qed.

(** X16.  Between two articles the local buffer of a conference never holds
    [save_every] rows: when it gets there, it is given to the global buffer
    and saved at once. *)
Theorem local_buffer_stays_below_save_every cid arts local_rows w :
  Z.of_nat (length local_rows) < Z.max 1 save_every →
  let r := process_articles driver dom details retries save_every cid arts local_rows w in
  Z.of_nat (length r.1) < Z.max 1 save_every.
Proof.
  intros Hbelow.
  by destruct (process_articles_spec cid arts local_rows w) as (_ & _ & _ & Hbound & _);
    apply Hbound.
Qed.

Lemma scr_walk_spec cid fuel :
  ∀ page local_rows w,
  let r := walk driver dom urljoin details retries save_every fuel cid page local_rows w in
  (result_rows w = [] → result_rows r.1.2 = [])
  ∧ failed r.1.2 = failed w
  ∧ (well_formed_output (output w) → well_formed_output (output r.1.2))
  ∧ ∃ rows,
      held r.1.1 r.1.2 = held local_rows w ++ rows
      ∧ Forall (λ row, Cwr.Conference_ID row = cid) rows.
Proof.
  induction fuel as [|fuel IH]; intros page local_rows w.
  { cbn. split_and!; try done. exists []. by rewrite app_nil_r. }
  cbn [walk].
  destruct (Scr.retry_get driver retries (Cwr.listing_url cid page) cid (browser w))
    as [loaded st].
  destruct loaded; [|cbn; split_and!; try done; exists []; by rewrite app_nil_r].
  destruct (parse_article_list urljoin
              (dom (Cwr.listing_url cid page) (length (Scr.gets st))) cid)
    as [|a arts]; [cbn; split_and!; try done; exists []; by rewrite app_nil_r|].
  destruct (process_articles_spec cid (a :: arts) local_rows (set_browser st w))
    as (Hrows & Hfile & Hout & _ & rows & Hheld & Hcid & _).
  destruct (process_articles driver dom details retries save_every cid (a :: arts)
              local_rows (set_browser st w)) as [local_rows1 w1].
  cbn [fst snd] in *.
  destruct (IH (S page) local_rows1 w1) as (Hrows2 & Hfile2 & Hout2 & rows2 & Hheld2 & Hcid2).
  split_and!.
  - intros Hempty. by apply Hrows2, Hrows.
  - by rewrite Hfile2, Hfile.
  - intros Hwf. by apply Hout2, Hout.
  - exists (rows ++ rows2). split.
    + rewrite Hheld2, Hheld. unfold held. cbn. by rewrite <- !app_assoc.
    + by apply Forall_app.
Qed.

Lemma scr_conference_spec cid fuel w :
  let r := process_conference driver dom urljoin details retries save_every fuel cid w in
  (result_rows w = [] → result_rows r.1 = [])
  ∧ failed r.1 = failed w
  ∧ (well_formed_output (output w) → well_formed_output (output r.1))
  ∧ ∃ rows local_rows,
      held local_rows r.1 = held [] w ++ rows
      ∧ Forall (λ row, Cwr.Conference_ID row = cid) rows
      ∧ (r.2 = true → local_rows = []).
Proof.
  unfold process_conference.
  destruct (scr_walk_spec cid fuel 1 [] w) as (Hrows & Hfile & Hout & rows & Hheld & Hcid).
  destruct (walk driver dom urljoin details retries save_every fuel cid 1 [] w)
    as [[local_rows w1] ended]. cbn [fst snd] in *.
  destruct ended; [|cbn [fst snd]; split_and!; try done; by exists rows, local_rows].
  destruct local_rows as [|row local_rows].
  - cbn [fst snd]. split_and!; try done. by exists rows, [].
  - destruct (flush_local_spec (row :: local_rows) w1)
      as (Hrows2 & _ & Hfile2 & Hheld2 & Hout2).
    cbn [fst snd]. split_and!.
    + done.
    + by rewrite Hfile2.
    + intros Hwf. by apply Hout2, Hout.
    + exists rows, []. by rewrite Hheld2.
Qed.

Lemma conferences_in_turn_spec ids fuel :
  ∀ w,
  let r := ScrRun.process_all driver dom urljoin details retries save_every fuel ids w in
  (result_rows w = [] → result_rows r.1 = [])
  ∧ failed r.1 = failed w
  ∧ (well_formed_output (output w) → well_formed_output (output r.1))
  ∧ ∃ rows local_rows,
      held local_rows r.1 = held [] w ++ rows
      ∧ Forall (λ row, Cwr.Conference_ID row ∈ ids) rows.
Proof.
  induction ids as [|cid ids IH]; intros w.
  { cbn. split_and!; try done. exists [], []. by rewrite app_nil_r. }
  cbn [ScrRun.process_all].
  destruct (scr_conference_spec cid fuel w)
    as (Hrows & Hfile & Hout & rows & local_rows & Hheld & Hcid & Hended).
  assert (Hhere : Forall (λ row, Cwr.Conference_ID row ∈ cid :: ids) rows).
  { eapply Forall_impl; [exact Hcid|]. intros row ->. by left. }
  destruct (process_conference driver dom urljoin details retries save_every fuel cid w)
    as [w1 finished]. cbn [fst snd] in *.
  destruct finished; [|cbn [fst]; split_and!; try done; by exists rows, local_rows].
  rewrite (Hended eq_refl) in Hheld.
  destruct (IH w1) as (Hrows2 & Hfile2 & Hout2 & rows2 & local_rows2 & Hheld2 & Hcid2).
  split_and!.
  - intros Hempty. by apply Hrows2, Hrows.
  - by rewrite Hfile2.
  - intros Hwf. by apply Hout2, Hout.
  - exists (rows ++ rows2), local_rows2. split.
    + by rewrite Hheld2, Hheld, app_assoc.
    + apply Forall_app. split; [done|].
      eapply Forall_impl; [exact Hcid2|]. intros row Hrow. by right.
Qed.

(** X17.  [main] removes the output file that an earlier run left: the run
    is the same as without it.  At its end nothing is left in the global
    buffer; the output file is absent when no row was saved, and otherwise
    holds one header, at its start, followed by the rows; every row is of
    a conference of the subset.  The failure log is left as it was when the
    run recorded no failure; otherwise, once every walk has ended, the log
    holds a line for every failure of the run, and without an earlier log
    it holds these failures as they are. *)
Theorem main_output fuel df start end_ output_file failed_file :
  let r := main driver dom urljoin details retries save_every fuel df start end_
             output_file failed_file in
  let failures := Scr.failed_urls (browser r.1) in
  r = main driver dom urljoin details retries save_every fuel df start end_
        None failed_file
  ∧ result_rows r.1 = []
  ∧ well_formed_output (output r.1)
  ∧ Forall (λ row, Cwr.Conference_ID row
                   ∈ subset (Cwr.row_id <$> filter Cwr.eligible df) start end_)
      (Cwr.data_rows (default [] (output r.1)))
  ∧ (failures = [] → failed r.1 = failed_file)
  ∧ (r.2 = true → failures ≠ [] →
     ∃ log, failed r.1 = Some log
       ∧ Forall (λ f, f ∈ log) failures
       ∧ (failed_file = None → log = failures)).
Proof.
  cbn zeta. split; [by destruct output_file|].
  unfold main.
  set (ids := subset (Cwr.row_id <$> filter Cwr.eligible df) start end_).
  set (w0 := {| browser := {| Scr.failed_urls := []; Scr.gets := []; Scr.warnings := [] |};
                result_rows := []; output := _; failed := failed_file |}).
  assert (Hstart : output w0 = None) by (by destruct output_file).
  destruct (conferences_in_turn_spec ids fuel w0)
    as (Hrows & Hfile & Hout & rows & local_rows & Hheld & Hcid).
  destruct (ScrRun.process_all driver dom urljoin details retries save_every fuel ids w0)
    as [w finished]. cbn [fst snd] in *.
  assert (Hdata : Forall (λ row, Cwr.Conference_ID row ∈ ids)
                    (Cwr.data_rows (default [] (output w)))).
  { unfold held in Hheld. rewrite Hstart in Hheld. cbn in Hheld.
    rewrite <- Hheld in Hcid. by apply Forall_app in Hcid as [? _]. }
  assert (Hwf : well_formed_output (output w)) by (apply Hout; by rewrite Hstart).
  destruct finished; cbn [fst snd result_rows output failed browser].
  - split_and!; try done; [by apply Hrows | by intros -> |].
    intros _ Hne. rewrite Hfile. cbn [failed w0].
    by apply FailureLog.save_failed_urls_keeps_failures.
  - split_and!; try done. by apply Hrows.
Qed.

End Walk.

Lemma local_buffer_stays_below_save_every_witness :
  let r := process_articles always_loads plain_dom scr_details 2 2 "7"
             [("7", "First", "https://civilica.com/doc/1");
              ("7", "Second", "https://civilica.com/doc/2");
              ("7", "Third", "https://civilica.com/doc/3")] [] empty_world in
  Z.of_nat (length r.1) < Z.max 1 2.
Proof.
  apply (local_buffer_stays_below_save_every always_loads plain_dom scr_details 2 2).
  cbn. lia.
Defined.

Example scr_run_on_plain_site :
  let r := main loses_second plain_dom join_relative scr_details 2 2 5
             one_conference 0 None (Some [Cwr.HeaderLine; Cwr.HeaderLine]) None in
  r.2 = true
  ∧ Cwr.column 1 <$> (Cwr.render <$> default [] (output r.1))
    = ["Title"; "First"; "Third"]
  ∧ result_rows r.1 = []
  ∧ Scr.gets (browser r.1)
    = [Cwr.listing_url "7" 1; "https://civilica.com/doc/1";
       "https://civilica.com/doc/2"; "https://civilica.com/doc/2";
       Cwr.listing_url "7" 2; "https://civilica.com/doc/3"; Cwr.listing_url "7" 3]
  ∧ failed r.1
    = Some [{| Scr.conference_id := "7"; Scr.url := "https://civilica.com/doc/2" |}].
Proof. by vm_compute. Qed.

(** A run of [scr.py] that saves no row leaves no output file. *)
Example scr_run_without_rows :
  let r := main always_timeout plain_dom join_relative scr_details 2 2 5
             one_conference 0 None (Some [Cwr.HeaderLine]) None in
  r.2 = true ∧ output r.1 = None
  ∧ failed r.1 = Some [{| Scr.conference_id := "7"; Scr.url := Cwr.listing_url "7" 1 |}].
Proof. by vm_compute. Qed.

(** X18.  [scr.py] does not check its range.  An end of 0 is read as no end; the
    subset then runs from [start] to the last id, and a negative [start]
    counts from the end; with [0 <= start < end] the subset holds the ids
    at the positions [start], ..., [end - 1]. *)
Theorem subset_by_position (ids : list string) (start : Z) :
  subset ids start (Some 0) = subset ids start None
  ∧ (0 ≤ start → subset ids start None = drop (Z.to_nat start) ids)
  ∧ (start < 0 →
     subset ids start None = drop (length ids - Z.to_nat (- start)) ids)
  ∧ (∀ e, 0 ≤ start → start < e →
     subset ids start (Some e) = take (Z.to_nat (e - start)) (drop (Z.to_nat start) ids)).
Proof.
  split_and!.
  - done.
  - intros Hstart. unfold subset, slice, slice_index.
    rewrite !decide_False by lia.
    destruct (decide (Z.of_nat (length ids) ≤ start)).
    + rewrite (Z.min_r start) by lia. rewrite !drop_ge by lia. by rewrite take_nil.
    + rewrite (Z.min_l start), Z.min_id by lia. apply take_ge. rewrite length_drop. lia.
  - intros Hstart. unfold subset, slice, slice_index.
    destruct (decide (Z.of_nat (length ids) < 0)); [lia|].
    destruct (decide (start < 0)); [|lia]. rewrite Z.min_id.
    replace (Z.to_nat (Z.max 0 (Z.of_nat (length ids) + start)))
      with (length ids - Z.to_nat (- start))%nat by lia.
    apply take_ge. rewrite length_drop. lia.
  - intros e Hstart He. unfold subset. rewrite decide_True by lia.
    by apply Selection.slice_in_range.
Qed.

End ScrRows.
